(** * MTG League Tracker: the league ledger (class [CommanderLeague])

    A shallow embedding of the ledger of [league_tracker_ui.py] and the
    properties of its operations: score accounting in
    [record_game_results], the derived standings of [get_standings], the
    roster operations and the save/load round trip.

    Modelling conventions.
    - A Python [dict] keeps its keys unique and in insertion order; it is an
      association list here ([Dict.t]), with the uniqueness of keys as the
      invariant [Dict.wf].
    - Python integers are unbounded: [Z].
    - A method mutates [self] and may raise.  A method is a computation
      [M S A] over the state [S] that either returns a value or raises, and
      carries in both cases the state reached: an exception does not roll
      back the mutations made before it.
    - The quotient [points / games] is a Python float.  The development is
      parametric in the type of these numbers ([PyNumber]): all it uses is
      their comparison [<], a strict weak order (no NaN arises from the
      quotient of two integers), and that the quotient is partial: beyond
      the range of the floats Python raises [OverflowError].  The rationals
      below that bound are an instance.
    - [json.dump] and [json.load] belong to the Python library: a file holds
      the JSON document that [json.dump] was given, and [json.load] gives it
      back. *)

From Stdlib Require Import ZArith List String Bool Lia Permutation Sorted QArith
  Qabs.
Import ListNotations.
Local Open Scope string_scope.
Local Open Scope list_scope.
Local Open Scope Z_scope.

(** ** Ordered dictionaries *)

Module Dict.
Section Ordered.
Context {V : Type}.

Definition t : Type := list (string * V).

(** [d.get(k)], and [d[k]] when the caller turns [None] into [KeyError]. *)
Fixpoint get (d : t) (k : string) : option V :=
  match d with
  | [] => None
  | (k', v) :: d' => if String.eqb k' k then Some v else get d' k
  end.

(** [k in d] *)
Definition mem (d : t) (k : string) : bool :=
  match get d k with Some _ => true | None => false end.

(** [d.get(k, dflt)] *)
Definition get_default (d : t) (k : string) (dflt : V) : V :=
  match get d k with Some v => v | None => dflt end.

(** [d[k] = v]: an existing key keeps its position, a new key goes last. *)
Fixpoint set (d : t) (k : string) (v : V) : t :=
  match d with
  | [] => [(k, v)]
  | (k', v') :: d' =>
      if String.eqb k' k then (k', v) :: d' else (k', v') :: set d' k v
  end.

(** [del d[k]] for a key that is present. *)
Fixpoint del (d : t) (k : string) : t :=
  match d with
  | [] => []
  | (k', v') :: d' => if String.eqb k' k then d' else (k', v') :: del d' k
  end.

Definition keys (d : t) : list string := map fst d.

(** [len(d)] *)
Definition len (d : t) : Z := Z.of_nat (List.length d).

(** The keys of a dictionary are pairwise distinct. *)
Definition wf (d : t) : Prop := NoDup (keys d).

End Ordered.
Arguments t : clear implicits.
End Dict.

(** ** Exceptions and the method monad *)

Inductive exn : Type :=
| KeyError (key : string)
| ZeroDivisionError
| FileNotFoundError (filename : string)
| AttributeError (attr : string)
| JSONDecodeError
| TypeError
| OverflowError.

Inductive outcome (S A : Type) : Type :=
| Returned (a : A) (s : S)
| Raised (e : exn) (s : S).
Arguments Returned {S A} a s.
Arguments Raised {S A} e s.

Definition M (S A : Type) : Type := S -> outcome S A.

Definition ret {S A} (a : A) : M S A := fun s => Returned a s.

Definition bind {S A B} (m : M S A) (k : A -> M S B) : M S B :=
  fun s => match m s with
           | Returned a s' => k a s'
           | Raised e s' => Raised e s'
           end.

Definition raise {S A} (e : exn) : M S A := fun s => Raised e s.

Definition get_state {S} : M S S := fun s => Returned s s.

Definition modify {S} (f : S -> S) : M S unit := fun s => Returned tt (f s).

Declare Scope method_scope.
Delimit Scope method_scope with method.
Notation "x <- m ;; k" := (bind m (fun x => k))
  (at level 61, m at next level, right associativity) : method_scope.
Notation "m ;; k" := (bind m (fun _ => k))
  (at level 61, right associativity) : method_scope.
Local Open Scope method_scope.

(** [for x in items: body(x)] *)
Fixpoint for_each {S A} (items : list A) (body : A -> M S unit) : M S unit :=
  match items with
  | [] => ret tt
  | x :: rest => body x ;; for_each rest body
  end.

(** The state a computation ends in, whether it returned or raised. *)
Definition final_state {S A} (o : outcome S A) : S :=
  match o with Returned _ s => s | Raised _ s => s end.

(** ** The data model *)

(** The value of [self.players[name]]: the inner dictionary with the keys
    "points", "games_played", "mvp_count" and "color".  The constructor and
    [add_player] build every entry with the four keys and integer
    statistics, and no method removes a key. *)
Record PlayerData : Type := mkPlayerData {
  points : Z;
  games_played : Z;
  mvp_count : Z;
  color : string
}.

(** An entry of [self.history] (the dictionary [game]). *)
Record GameRecord : Type := mkGameRecord {
  timestamp : string;
  results : Dict.t string;
  notes : string;
  mvp : string;
  deck_used : string
}.

Record League : Type := mkLeague {
  players : Dict.t PlayerData;
  history : list GameRecord
}.

Definition set_points (d : PlayerData) (v : Z) : PlayerData :=
  mkPlayerData v (games_played d) (mvp_count d) (color d).
Definition set_games_played (d : PlayerData) (v : Z) : PlayerData :=
  mkPlayerData (points d) v (mvp_count d) (color d).
Definition set_mvp_count (d : PlayerData) (v : Z) : PlayerData :=
  mkPlayerData (points d) (games_played d) v (color d).

Definition team_colors : list string :=
  ["red"; "blue"; "green"; "orange"; "purple"; "magenta"; "cyan"; "yellow"; "pink"].

(** [team_colors[i]] for an index within range. *)
Definition color_at (i : Z) : string := nth (Z.to_nat i) team_colors "".

(** [len(team_colors)] *)
Definition len_team_colors : Z := Z.of_nat (List.length team_colors).

(** [CommanderLeague(players)]: the comprehension over [enumerate(players)];
    a name listed twice keeps its first position and takes its last value. *)
Fixpoint init_players (i : Z) (names : list string) (acc : Dict.t PlayerData)
  : Dict.t PlayerData :=
  match names with
  | [] => acc
  | player :: rest =>
      init_players (i + 1) rest
        (Dict.set acc player
           (mkPlayerData 0 0 0 (color_at (i mod len_team_colors))))
  end.

Definition init (names : list string) : League :=
  mkLeague (init_players 0 names []) [].

(** ** Numbers of the standings *)

(** The numbers an average can be: the integer [0] and the float quotient
    of two integers, compared with [<].  [truediv p g] is the quotient
    [p / g] of two integers for [g <> 0]: the float it rounds to, or [None]
    when that is beyond the range of the floats, where Python raises
    [OverflowError] ("integer division result too large for a float"). *)
Class PyNumber (F : Type) : Type := {
  int_zero : F;
  truediv : Z -> Z -> option F;
  num_lt : F -> F -> bool
}.

(** [<] on these numbers is a strict weak order. *)
Class PyNumberOrder (F : Type) `{PyNumber F} : Prop := {
  num_lt_asym : forall a b : F, num_lt a b = true -> num_lt b a = false;
  num_ge_trans : forall a b c : F,
      num_lt a b = false -> num_lt b c = false -> num_lt a c = false
}.

(** [a >= b] *)
Definition num_ge {F} `{PyNumber F} (a b : F) : bool := negb (num_lt a b).

(** [p / g] *)
Definition py_truediv {S F} `{PyNumber F} (p g : Z) : M S F :=
  if g =? 0 then raise ZeroDivisionError
  else match truediv p g with
       | Some q => ret q
       | None => raise OverflowError
       end.

(** ** [sorted(l, key=..., reverse=True)]

    Python's sort is stable, also with [reverse=True]: elements whose keys
    compare equal keep the order they had in [l].  It compares keys with
    [<] only.  The order of the result of a stable sort does not depend on
    the algorithm; this is insertion from the right. *)
Section PySorted.
Context {A K : Type} (lt : K -> K -> bool) (key : A -> K).

Fixpoint insert_reverse (x : A) (l : list A) : list A :=
  match l with
  | [] => [x]
  | y :: l' => if lt (key x) (key y) then y :: insert_reverse x l' else x :: l
  end.

(** [x] does not come after [y] in descending order: [key x >= key y],
    that is, not [key x < key y]. *)
Definition desc (x y : A) : Prop := lt (key x) (key y) = false.

Definition sorted_reverse (l : list A) : list A :=
  fold_right insert_reverse [] l.

(** The key of [x] compares equal to [k]: neither is [<] the other. *)
Definition ties (k : K) (x : A) : bool :=
  negb (lt k (key x)) && negb (lt (key x) k).
End PySorted.

(** ** The ledger: [class CommanderLeague] *)

Definition placement_points : Dict.t Z :=
  [("1st", 5); ("2nd", 3); ("3rd", 2); ("4th", 1); ("5th+", 0)].

(** [self.players[player]], read. *)
Definition player_entry (player : string) : M League PlayerData :=
  fun L => match Dict.get (players L) player with
           | Some d => Returned d L
           | None => Raised (KeyError player) L
           end.

(** The entry of a rostered player after one of its fields was assigned. *)
Definition store_entry (player : string) (d : PlayerData) : M League unit :=
  modify (fun L => mkLeague (Dict.set (players L) player d) (history L)).

(** [self.players[player]["points"] += n] *)
Definition add_to_points (player : string) (n : Z) : M League unit :=
  d <- player_entry player ;; store_entry player (set_points d (points d + n)).

(** [self.players[player]["games_played"] += n] *)
Definition add_to_games_played (player : string) (n : Z) : M League unit :=
  d <- player_entry player ;;
  store_entry player (set_games_played d (games_played d + n)).

(** [self.players[player]["mvp_count"] += n] *)
Definition add_to_mvp_count (player : string) (n : Z) : M League unit :=
  d <- player_entry player ;; store_entry player (set_mvp_count d (mvp_count d + n)).

(** [self.history.append(game)] *)
Definition history_append (game : GameRecord) : M League unit :=
  modify (fun L => mkLeague (players L) (history L ++ [game])).

(** The body of [for player, place in results_dict.items()]. *)
Definition credit_placement (entry : string * string) : M League unit :=
  let '(player, place) := entry in
  if (place =? "Did Not Play")%string then ret tt
  else
    let points := Dict.get_default placement_points place 0 in
    add_to_points player points ;;
    add_to_games_played player 1.

(** [if mvp and mvp in self.players: ...] *)
Definition credit_mvp (mvp : string) : M League unit :=
  L <- get_state ;;
  if negb (mvp =? "")%string && Dict.mem (players L) mvp then
    add_to_points mvp 1 ;;
    add_to_mvp_count mvp 1
  else ret tt.

(** [record_game_results(results_dict, notes, mvp, deck_used)]; [now] is the
    formatted value of [datetime.datetime.now()]. *)
Definition record_game_results (now : string) (results_dict : Dict.t string)
    (notes mvp deck_used : string) : M League unit :=
  let game := mkGameRecord now results_dict notes mvp deck_used in
  history_append game ;;
  for_each results_dict credit_placement ;;
  credit_mvp mvp.

Section Standings.
Context {F : Type} `{PyNumber F}.

(** A tuple [(player, points, games, avg, mvp_count)]. *)
Definition row : Type := (string * Z * Z * F * Z)%type.

Definition row_player (x : row) : string := let '(p, _, _, _, _) := x in p.
Definition row_points (x : row) : Z := let '(_, p, _, _, _) := x in p.
Definition row_games (x : row) : Z := let '(_, _, g, _, _) := x in g.
Definition row_avg (x : row) : F := let '(_, _, _, a, _) := x in a.
Definition row_mvp_count (x : row) : Z := let '(_, _, _, _, m) := x in m.

(** The average that [get_standings] reports for an entry, when the
    quotient is a float. *)
Definition average (d : PlayerData) : option F :=
  if games_played d >? 0 then truediv (points d) (games_played d)
  else Some int_zero.

(** The tuple that [get_standings] builds for an item of the roster. *)
Definition standing (item : string * PlayerData) : option row :=
  let '(player, d) := item in
  match average d with
  | Some avg => Some (player, points d, games_played d, avg, mvp_count d)
  | None => None
  end.

(** [for player, data in self.players.items(): ... standings.append(...)].
    The entry always has its "mvp_count", so [data.get("mvp_count", 0)] is
    the field. *)
Fixpoint standings_loop (items : list (string * PlayerData))
    (standings : list row) : M League (list row) :=
  match items with
  | [] => ret standings
  | (player, data) :: rest =>
      let points := points data in
      let games := games_played data in
      let mvp_count := mvp_count data in
      avg <- (if games >? 0 then py_truediv points games else ret int_zero) ;;
      standings_loop rest (standings ++ [(player, points, games, avg, mvp_count)])
  end.

(** [get_standings(sort_by)] *)
Definition get_standings (sort_by : string) : M League (list row) :=
  L <- get_state ;;
  standings <- standings_loop (players L) [] ;;
  if (sort_by =? "games")%string then ret (sorted_reverse Z.ltb row_games standings)
  else ret (sorted_reverse num_lt row_avg standings).
End Standings.
Arguments row F : clear implicits.

(** [add_player(name)] *)
Definition add_player (name : string) : M League unit :=
  L <- get_state ;;
  if negb (name =? "")%string && negb (Dict.mem (players L) name) then
    let color := color_at (Dict.len (players L) mod len_team_colors) in
    store_entry name (mkPlayerData 0 0 0 color)
  else ret tt.

(** [remove_player(name)] *)
Definition remove_player (name : string) : M League unit :=
  L <- get_state ;;
  if Dict.mem (players L) name then
    modify (fun L => mkLeague (Dict.del (players L) name) (history L))
  else ret tt.

(** The body of [for player in self.players] in [reset_league]. *)
Definition reset_player (player : string) : M League unit :=
  (d <- player_entry player ;; store_entry player (set_points d 0)) ;;
  (d <- player_entry player ;; store_entry player (set_games_played d 0)) ;;
  (d <- player_entry player ;; store_entry player (set_mvp_count d 0)).

(** [reset_league()] *)
Definition reset_league : M League unit :=
  L <- get_state ;;
  for_each (Dict.keys (players L)) reset_player ;;
  modify (fun L => mkLeague (players L) []).

(** ** Persistence *)

(** JSON documents, as [json.dump] takes them and [json.load] gives them
    back: objects keep the order of their keys.  The ledger stores integers
    and strings only, so no floating literal occurs. *)
Local Unset Elimination Schemes.
Inductive json : Type :=
| JNull
| JBool (b : bool)
| JInt (n : Z)
| JStr (s : string)
| JList (l : list json)
| JDict (d : list (string * json)).
Local Set Elimination Schemes.

(** What a file holds: text that [json.load] parses to a document, or text
    that it rejects. *)
Inductive file : Type :=
| Document (doc : json)
| Garbage.

(** The ledger, the files and what was printed. *)
Record World : Type := mkWorld {
  league : League;
  files : string -> option file;
  stdout : list string
}.

Definition write_file (fs : string -> option file) (filename : string) (c : file)
  : string -> option file :=
  fun f => if String.eqb f filename then Some c else fs f.

(** The inner dictionaries and the history as documents. *)
Definition json_of_player (d : PlayerData) : json :=
  JDict [("points", JInt (points d)); ("games_played", JInt (games_played d));
         ("mvp_count", JInt (mvp_count d)); ("color", JStr (color d))].

Definition json_of_players (ps : Dict.t PlayerData) : json :=
  JDict (map (fun '(name, d) => (name, json_of_player d)) ps).

Definition json_of_results (r : Dict.t string) : json :=
  JDict (map (fun '(player, place) => (player, JStr place)) r).

Definition json_of_game (g : GameRecord) : json :=
  JDict [("timestamp", JStr (timestamp g)); ("results", json_of_results (results g));
         ("notes", JStr (notes g)); ("mvp", JStr (mvp g));
         ("deck_used", JStr (deck_used g))].

Definition json_of_history (h : list GameRecord) : json :=
  JList (map json_of_game h).

(** A loaded document read back as ledger data.  Python assigns whatever
    document it loaded; the state of this model is typed, so a document
    that is not the image of a roster or of a history has no reading. *)
Definition int_of_json (j : json) : option Z :=
  match j with JInt n => Some n | _ => None end.

Definition str_of_json (j : json) : option string :=
  match j with JStr s => Some s | _ => None end.

Definition field (j : json) (k : string) : option json :=
  match j with JDict d => Dict.get d k | _ => None end.

Definition opt_bind {A B} (o : option A) (k : A -> option B) : option B :=
  match o with Some a => k a | None => None end.

Fixpoint traverse {A B} (f : A -> option B) (l : list A) : option (list B) :=
  match l with
  | [] => Some []
  | x :: l' =>
      opt_bind (f x) (fun y => opt_bind (traverse f l') (fun ys => Some (y :: ys)))
  end.

Definition dict_of_json {V} (f : json -> option V) (j : json) : option (Dict.t V) :=
  match j with
  | JDict d => traverse (fun '(k, v) => opt_bind (f v) (fun y => Some (k, y))) d
  | _ => None
  end.

Definition player_of_json (j : json) : option PlayerData :=
  opt_bind (opt_bind (field j "points") int_of_json) (fun p =>
  opt_bind (opt_bind (field j "games_played") int_of_json) (fun g =>
  opt_bind (opt_bind (field j "mvp_count") int_of_json) (fun m =>
  opt_bind (opt_bind (field j "color") str_of_json) (fun c =>
  Some (mkPlayerData p g m c))))).

Definition players_of_json : json -> option (Dict.t PlayerData) :=
  dict_of_json player_of_json.

Definition game_of_json (j : json) : option GameRecord :=
  opt_bind (opt_bind (field j "timestamp") str_of_json) (fun t =>
  opt_bind (opt_bind (field j "results") (dict_of_json str_of_json)) (fun r =>
  opt_bind (opt_bind (field j "notes") str_of_json) (fun n =>
  opt_bind (opt_bind (field j "mvp") str_of_json) (fun m =>
  opt_bind (opt_bind (field j "deck_used") str_of_json) (fun k =>
  Some (mkGameRecord t r n m k)))))).

Definition history_of_json (j : json) : option (list GameRecord) :=
  match j with JList l => traverse game_of_json l | _ => None end.

(** [save_to_file(filename)] *)
Definition save_to_file (filename : string) : M World unit :=
  w <- get_state ;;
  let data := JDict [("players", json_of_players (players (league w)));
                     ("history", json_of_history (history (league w)))] in
  modify (fun w => mkWorld (league w) (write_file (files w) filename (Document data))
                           (stdout w)).

(** [with open(filename, 'r') as f: data = json.load(f)] *)
Definition open_and_load (filename : string) : M World json :=
  fun w => match files w filename with
           | Some (Document doc) => Returned doc w
           | Some Garbage => Raised JSONDecodeError w
           | None => Raised (FileNotFoundError filename) w
           end.

(** [data.get(k, dflt)] *)
Definition data_get (data : json) (k : string) (dflt : json) : M World json :=
  match data with
  | JDict d => ret (Dict.get_default d k dflt)
  | _ => raise (AttributeError "get")
  end.

(** The typed reading of a loaded value. *)
Definition typed {A} (o : option A) : M World A :=
  match o with Some a => ret a | None => raise TypeError end.

(** [print(line)] *)
Definition print (line : string) : M World unit :=
  modify (fun w => mkWorld (league w) (files w) (stdout w ++ [line])).

(** [try: body except FileNotFoundError: handler] *)
Definition try_except_FileNotFoundError {S A} (body handler : M S A) : M S A :=
  fun s => match body s with
           | Raised (FileNotFoundError _) s' => handler s'
           | o => o
           end.

(** [load_from_file(filename)] *)
Definition load_from_file (filename : string) : M World unit :=
  try_except_FileNotFoundError
    (data <- open_and_load filename ;;
     ps <- data_get data "players" (JDict []) ;;
     ps <- typed (players_of_json ps) ;;
     modify (fun w => mkWorld (mkLeague ps (history (league w))) (files w) (stdout w)) ;;
     h <- data_get data "history" (JList []) ;;
     h <- typed (history_of_json h) ;;
     modify (fun w => mkWorld (mkLeague (players (league w)) h) (files w) (stdout w)))
    (print "Save file not found. Starting new league.").

(** ** The vocabulary of the statements *)

(** The entry [d] of a player after the loop credited the tag [place]. *)
Definition placed (d : PlayerData) (place : string) : PlayerData :=
  if (place =? "Did Not Play")%string then d
  else mkPlayerData (points d + Dict.get_default placement_points place 0)
                    (games_played d + 1) (mvp_count d) (color d).

(** The entry [d] of [player] after the loop over [results_dict]. *)
Definition placed_by (results_dict : Dict.t string) (player : string)
    (d : PlayerData) : PlayerData :=
  match Dict.get results_dict player with
  | Some place => placed d place
  | None => d
  end.

(** [mvp] passes the test [mvp and mvp in self.players] and names [player]. *)
Definition is_mvp (L : League) (mvp player : string) : bool :=
  negb (mvp =? "")%string && Dict.mem (players L) mvp && (mvp =? player)%string.

(** The entry [d] after the two statements under the MVP test. *)
Definition mvp_awarded (d : PlayerData) : PlayerData :=
  mkPlayerData (points d + 1) (games_played d) (mvp_count d + 1) (color d).

(** Every name that [results_dict] gives a placement to is in the roster:
    the loop then raises no [KeyError]. *)
Definition results_rostered (L : League) (results_dict : Dict.t string) : Prop :=
  forall player place,
    In (player, place) results_dict ->
    place <> "Did Not Play" ->
    Dict.mem (players L) player = true.

(** The six tags of the record dialog. *)
Inductive placement : Type :=
| First | Second | Third | Fourth | FifthPlus | DidNotPlay.

Definition tag (t : placement) : string :=
  match t with
  | First => "1st"
  | Second => "2nd"
  | Third => "3rd"
  | Fourth => "4th"
  | FifthPlus => "5th+"
  | DidNotPlay => "Did Not Play"
  end.

(** The award of the specification: 1st=5, 2nd=3, 3rd=2, 4th=1, 5th+=0
    (and nothing for a player who did not play). *)
Definition fixed_award (t : placement) : Z :=
  match t with
  | First => 5
  | Second => 3
  | Third => 2
  | Fourth => 1
  | FifthPlus => 0
  | DidNotPlay => 0
  end.

(** The extra point (and MVP count) that a call credits to [player]. *)
Definition mvp_bonus (L : League) (mvp player : string) : Z :=
  if is_mvp L mvp player then 1 else 0.

(** The effect of a call on the rostered players it places, with no word
    on the MVP: a placed player gains one game and the award of the tag,
    a player who did not play keeps points, games and MVP count. *)
Definition placement_effect_without_mvp (L L' : League)
    (results_dict : Dict.t string) : Prop :=
  forall player d t,
    Dict.get (players L) player = Some d ->
    Dict.get results_dict player = Some (tag t) ->
    exists d',
      Dict.get (players L') player = Some d' /\
      match t with
      | DidNotPlay =>
          points d' = points d /\ games_played d' = games_played d /\
          mvp_count d' = mvp_count d
      | _ =>
          games_played d' = games_played d + 1 /\
          points d' = points d + fixed_award t
      end.

(** Every rostered player is given one of the six tags, and nobody else is
    given anything. *)
Definition maps_roster_to_tags (L : League) (results_dict : Dict.t string) : Prop :=
  Dict.keys results_dict = Dict.keys (players L) /\
  forall player place, In (player, place) results_dict -> exists t, place = tag t.

(** The five tags of the table [placement_points]. *)
Definition known_tags : list string := Dict.keys placement_points.

(** The entry gives a placement to a name that is not in the roster. *)
Definition unrostered_entry (L : League) (entry : string * string) : bool :=
  negb (snd entry =? "Did Not Play")%string &&
  negb (Dict.mem (players L) (fst entry)).

(** An entry with its statistics at zero and its colour kept. *)
Definition zeroed (d : PlayerData) : PlayerData := mkPlayerData 0 0 0 (color d).

Definition zeroed_item (item : string * PlayerData) : string * PlayerData :=
  (fst item, zeroed (snd item)).

Definition diagnostic : string := "Save file not found. Starting new league.".

(** The document that [save_to_file] writes for a league. *)
Definition saved_document (L : League) : json :=
  JDict [("players", json_of_players (players L));
         ("history", json_of_history (history L))].

(** A method keeps the property [P] of the state, whether it returns or
    raises. *)
Definition preserves {S A} (P : S -> Prop) (m : M S A) : Prop :=
  forall s, P s -> P (final_state (m s)).

(** The invariant of the ledger: the roster is a dictionary. *)
Definition roster_wf (L : League) : Prop := Dict.wf (players L).

(** ** The rationals as numbers of the standings *)

Definition Q_lt (a b : Q) : bool := negb (Qle_bool b a).

(** The quotients that round to a float are those below
    [2^1024 - 2^970] in absolute value. *)
Definition float_limit : Q := inject_Z (2 ^ 1024 - 2 ^ 970).

Definition Q_truediv (p g : Z) : option Q :=
  let q := (inject_Z p / inject_Z g)%Q in
  if Qle_bool float_limit (Qabs q) then None else Some q.

#[export] Instance PyNumber_Q : PyNumber Q := {|
  int_zero := 0%Q;
  truediv := Q_truediv;
  num_lt := Q_lt
|}.

(** ** Standings: the vocabulary of the statements *)

(** The tuples of the roster, in the order of the roster, when every
    quotient is a float. *)
Definition roster_standings {F} `{PyNumber F} (L : League) : option (list (row F)) :=
  traverse standing (players L).

(** No quotient [points / games_played] that [get_standings] computes is
    beyond the range of the floats. *)
Definition in_float_range {F} `{PyNumber F} (L : League) : Prop :=
  forall player d,
    In (player, d) (players L) ->
    games_played d > 0 ->
    truediv (points d) (games_played d) <> None.

(** The first thing C3 claimed of every league: [get_standings] returns
    rows for it. *)
Definition standings_returned {F} `{PyNumber F} (sort_by : string) (L : League)
  : Prop :=
  exists rows : list (row F), get_standings sort_by L = Returned rows L.

(** The rows as [get_standings] orders them. *)
Definition sorted_rows {F} `{PyNumber F} (sort_by : string)
    (rows0 : list (row F)) : list (row F) :=
  if (sort_by =? "games")%string then sorted_reverse Z.ltb row_games rows0
  else sorted_reverse num_lt row_avg rows0.

(** C7 as it was claimed: [get_standings] returns, and reports every
    rostered player without a game with the average 0. *)
Definition zero_games_reported {F} `{PyNumber F} (sort_by : string)
    (L : League) : Prop :=
  exists rows : list (row F),
    get_standings sort_by L = Returned rows L /\
    forall player d,
      Dict.get (players L) player = Some d ->
      games_played d = 0 ->
      In (player, points d, 0, int_zero, mvp_count d) rows.

(** A league with statistics that no float can average. *)
Definition huge_points : Z := 10 ^ 400.

Definition league_huge : League :=
  mkLeague [("A", mkPlayerData huge_points 1 0 "red");
            ("B", mkPlayerData 0 0 0 "blue")] [].

(** ** Running the ledger: the example of the specification *)

Definition roster_AB : League := init ["A"; "B"].

Definition game1 : Dict.t string := [("A", "1st"); ("B", "2nd")].
Definition game2 : Dict.t string := [("A", "Did Not Play"); ("B", "1st")].
Definition game_B_absent : Dict.t string := [("A", "1st"); ("B", "Did Not Play")].

Definition after_game1 : League :=
  final_state (record_game_results "2024-01-01 20:00:00" game1 "" "A" "" roster_AB).

Definition after_game2 : League :=
  final_state (record_game_results "2024-01-08 20:00:00" game2 "" "" "" after_game1).

Definition game_odd_tag : Dict.t string := [("A", "winner"); ("B", "2nd")].

Definition roster_ABC : League := init ["A"; "B"; "C"].

Definition game_ghost : Dict.t string :=
  [("A", "1st"); ("Zed", "2nd"); ("B", "3rd")].

Definition no_files : string -> option file := fun _ => None.

Definition world_after_game2 : World := mkWorld after_game2 no_files [].

(** ** A season: the history as the account of the statistics *)

(** The call that appends the record [g]: its arguments are the fields of
    the record. *)
Definition record_game (g : GameRecord) : M League unit :=
  record_game_results (timestamp g) (results g) (notes g) (mvp g) (deck_used g).

(** One call after another. *)
Definition record_games (gs : list GameRecord) : M League unit :=
  for_each gs record_game.

(** The record [g] gives [player] a placement other than "Did Not Play". *)
Definition played_in (player : string) (g : GameRecord) : Z :=
  match Dict.get (results g) player with
  | Some place => if (place =? "Did Not Play")%string then 0 else 1
  | None => 0
  end.

(** The points of the table for the placement of [player] in [g]. *)
Definition award_in (player : string) (g : GameRecord) : Z :=
  match Dict.get (results g) player with
  | Some place =>
      if (place =? "Did Not Play")%string then 0
      else Dict.get_default placement_points place 0
  | None => 0
  end.

(** The record [g] names [player] as its MVP. *)
Definition mvp_in (player : string) (g : GameRecord) : Z :=
  if negb (mvp g =? "")%string && (mvp g =? player)%string then 1 else 0.

Definition tally (f : GameRecord -> Z) (h : list GameRecord) : Z :=
  fold_right (fun g acc => f g + acc) 0 h.

(** The statistics of every rostered player are what the history accounts
    for. *)
Definition consistent (L : League) : Prop :=
  forall player d,
    Dict.get (players L) player = Some d ->
    games_played d = tally (played_in player) (history L) /\
    mvp_count d = tally (mvp_in player) (history L) /\
    points d = tally (award_in player) (history L) + tally (mvp_in player) (history L).

(** The results of [g] are a dictionary that places rostered names only. *)
Definition playable (L : League) (g : GameRecord) : Prop :=
  Dict.wf (results g) /\ results_rostered L (results g).

(** Nobody is given a placement: every tag is "Did Not Play". *)
Definition nobody_played (results_dict : Dict.t string) : Prop :=
  forall player place, In (player, place) results_dict -> place = "Did Not Play".

Definition season_AB : list GameRecord :=
  [mkGameRecord "2024-01-01 20:00:00" game1 "" "A" "";
   mkGameRecord "2024-01-08 20:00:00" game2 "" "" ""].

(** A property of the ledger that no update of the statistics of a rostered
    player can break. *)
Definition entry_stable (P : League -> Prop) : Prop :=
  forall L player d d',
    P L ->
    Dict.get (players L) player = Some d ->
    color d' = color d ->
    P (mkLeague (Dict.set (players L) player d') (history L)).

(** ** The script: which league the application starts with *)

(** The list [players] of the script. *)
Definition default_players : list string :=
  ["Mike"; "Mez"; "Dan"; "Vik"; "Noah"; "Lucas"; "Isaac"; "Layla"; "Steve"].

(** The default file name of [save_to_file] and [load_from_file]. *)
Definition default_filename : string := "league_scores.json".

(** [league = ...]: the variable [league] is the ledger of the world. *)
Definition set_league (L : League) : M World unit :=
  modify (fun w => mkWorld L (files w) (stdout w)).

(** [not d] for a dictionary [d] *)
Definition dict_is_empty {V} (d : Dict.t V) : bool :=
  match d with [] => true | _ :: _ => false end.

(** The lines of the script before the window is built:
    [league = CommanderLeague(players)], [league.load_from_file()],
    [if not league.players: league = CommanderLeague(players)]. *)
Definition main_league : M World unit :=
  set_league (init default_players) ;;
  load_from_file default_filename ;;
  w <- get_state ;;
  if dict_is_empty (players (league w)) then set_league (init default_players)
  else ret tt.

(** The key [k] of the object [d] is absent, and the data is the default
    [dflt], or it holds the document of the data. *)
Definition absent_or {A} (d : Dict.t json) (k : string) (doc_of : A -> json)
    (dflt a : A) : Prop :=
  (Dict.get d k = None /\ a = dflt) \/ Dict.get d k = Some (doc_of a).

(** Every statistic of every entry is zero. *)
Definition all_zero (ps : Dict.t PlayerData) : Prop :=
  forall player d,
    Dict.get ps player = Some d ->
    points d = 0 /\ games_played d = 0 /\ mvp_count d = 0.

Definition game_nobody : Dict.t string :=
  [("A", "Did Not Play"); ("Zed", "Did Not Play")].

(** ** The window: [class LeagueApp]

    Of the window the model keeps the ledger it drives and the sequence of
    what it shows; widgets and colours are left out.  What the user typed or
    selected in a dialog is the state of the dialog.  [strip] stands for
    Python's [str.strip]. *)

Inductive ui_event : Type :=
| ShowInfo (title message : string)
| ShowError (title message : string)
| BuildMainUI
| DialogDestroyed.

Record App : Type := mkApp {
  app_league : League;
  ui : list ui_event
}.

(** A method of the ledger called on [self.league]. *)
Definition on_league {A} (m : M League A) : M App A :=
  fun a => match m (app_league a) with
           | Returned x L => Returned x (mkApp L (ui a))
           | Raised e L => Raised e (mkApp L (ui a))
           end.

Definition emit (e : ui_event) : M App unit :=
  modify (fun a => mkApp (app_league a) (ui a ++ [e])).

(** The variables of the dialog "Record Game Result": the placement
    selected for each player, the notes, the MVP and the deck. *)
Record RecordDialog : Type := mkRecordDialog {
  entries : Dict.t string;
  notes_entry : string;
  mvp_var : string;
  deck_entry : string
}.

Module LeagueApp.
Section Callbacks.
Variable strip : string -> string.

(** [open_record_game_dialog()]: one row per player of the roster, set to
    "Did Not Play"; the MVP menu set to the first player.  With an empty
    roster [tk.OptionMenu(form, mvp_var, *mvp_choices)] is called without
    its required value and raises [TypeError]: the button "Record Game" and
    its callback are never created. *)
Definition open_record_game_dialog : M App RecordDialog :=
  a <- get_state ;;
  let L := app_league a in
  let rows := map (fun '(player, _) => (player, "Did Not Play")) (players L) in
  match Dict.keys (players L) with
  | [] => raise TypeError
  | first :: _ => ret (mkRecordDialog rows "" first "")
  end.

(** The callback [record] of the button "Record Game". *)
Definition record (now : string) (dlg : RecordDialog) : M App unit :=
  let results := entries dlg in
  if forallb (fun r => (r =? "Did Not Play")%string) (map snd results) then
    emit (ShowError "Error" "At least one player must have a placement.")
  else
    on_league (record_game_results now results (strip (notes_entry dlg))
                 (strip (mvp_var dlg)) (strip (deck_entry dlg))) ;;
    emit (ShowInfo "Success" "Game result recorded.") ;;
    emit DialogDestroyed.

(** [f"Player '{name}' not found."] *)
Definition not_found (name : option string) : string :=
  ("Player '" ++ match name with Some n => n | None => "None" end ++ "' not found.")%string.

(** [remove_player()]: [asked] is what [simpledialog.askstring] returned,
    [None] when the user cancelled. *)
Definition remove_player (asked : option string) : M App unit :=
  a <- get_state ;;
  match asked with
  | Some name =>
      if negb (name =? "")%string && Dict.mem (players (app_league a)) name then
        on_league (remove_player (strip name)) ;;
        emit BuildMainUI
      else emit (ShowError "Error" (not_found asked))
  | None => emit (ShowError "Error" (not_found asked))
  end.
End Callbacks.
End LeagueApp.

(** The dialog shows the roster of [L]: one row per player, in order. *)
Definition dialog_for (L : League) (dlg : RecordDialog) : Prop :=
  Dict.keys (entries dlg) = Dict.keys (players L).

(** A [strip] to run the callbacks with: it removes the spaces at both
    ends. *)
Fixpoint lstrip (s : string) : string :=
  match s with
  | String c s' => if Ascii.eqb c (Ascii.ascii_of_nat 32) then lstrip s' else s
  | EmptyString => s
  end.

Fixpoint rev_string (s acc : string) : string :=
  match s with
  | EmptyString => acc
  | String c s' => rev_string s' (String c acc)
  end.

Definition strip_spaces (s : string) : string :=
  rev_string (lstrip (rev_string (lstrip s) "")) "".

(** The sum of a statistic over the roster. *)
Definition roster_total (f : PlayerData -> Z) (ps : Dict.t PlayerData) : Z :=
  fold_right (fun item acc => f (snd item) + acc) 0 ps.

Definition sum_over (names : list string) (f : string -> Z) : Z :=
  fold_right (fun name acc => f name + acc) 0 names.

(** ** More leagues and files to run the ledger on *)

(** A file that only holds a history. *)
Definition history_only : json :=
  JDict [("version", JInt 1); ("history", json_of_history (history after_game2))].

Definition world_history_only : World :=
  mkWorld roster_AB (write_file no_files "old.json" (Document history_only)) [].

(** The document is an object. *)
Definition is_object (doc : json) : bool :=
  match doc with JDict _ => true | _ => false end.

(** A saved league whose last player was removed: its history does not
    survive the restart. *)
Definition emptied_league : League := mkLeague [] (history after_game2).

Definition world_emptied : World :=
  mkWorld roster_AB
    (write_file no_files default_filename (Document (saved_document emptied_league))) [].

Definition dialog_game1 : RecordDialog := mkRecordDialog game1 " close game " "A" "".

(** A roster with a name that ends in a space, as a save file can hold. *)
Definition roster_spaced : League := init ["A "; "A"; "B"].

(** C2 as it was claimed, of the state [L'] a call ends in: a non-empty
    rostered [mvp] has one MVP award more than in [L], and one point more
    than the placement gives. *)
Definition mvp_credited (L L' : League) (results_dict : Dict.t string)
    (mvp : string) : Prop :=
  forall d,
    mvp <> "" ->
    Dict.get (players L) mvp = Some d ->
    exists d',
      Dict.get (players L') mvp = Some d' /\
      mvp_count d' = mvp_count d + 1 /\
      points d' = points (placed_by results_dict mvp d) + 1.

(** C10 as it was claimed, of the state [L'] a call ends in: the rostered
    [player], whose tag is not in the table, has one game more than in [L]
    and no point from the placement. *)
Definition unknown_tag_counted (L L' : League) (mvp player : string) : Prop :=
  forall d,
    Dict.get (players L) player = Some d ->
    exists d',
      Dict.get (players L') player = Some d' /\
      games_played d' = games_played d + 1 /\
      points d' = points d + mvp_bonus L mvp player.

(** Results that place a name outside the roster before a player with a
    tag that is not in the table. *)
Definition game_ghost_odd : Dict.t string := [("Zed", "1st"); ("A", "winner")].

(** * Properties *)

Lemma Q_lt_asym (a b : Q) : Q_lt a b = true -> Q_lt b a = false.
Proof.
  unfold Q_lt. intros Hab.
  apply negb_true_iff in Hab. apply negb_false_iff.
  apply Qle_bool_iff.
  destruct (Qlt_le_dec a b) as [Hlt | Hle].
  - now apply Qlt_le_weak.
  - apply Qle_bool_iff in Hle. congruence.
Qed.

Lemma Q_ge_trans (a b c : Q) :
  Q_lt a b = false -> Q_lt b c = false -> Q_lt a c = false.
Proof.
  unfold Q_lt. rewrite !negb_false_iff, !Qle_bool_iff.
  intros Hba Hcb. now apply Qle_trans with b.
Qed.

#[export] Instance PyNumber_Q_order : PyNumberOrder Q.
Proof. split; [exact Q_lt_asym | exact Q_ge_trans]. Qed.

Example roster_AB_players :
  players roster_AB =
  [("A", mkPlayerData 0 0 0 "red"); ("B", mkPlayerData 0 0 0 "blue")].
Proof. reflexivity. Qed.

Example after_game1_players :
  players after_game1 =
  [("A", mkPlayerData 6 1 1 "red"); ("B", mkPlayerData 3 1 0 "blue")].
Proof. reflexivity. Qed.

Example after_game2_players :
  players after_game2 =
  [("A", mkPlayerData 6 1 1 "red"); ("B", mkPlayerData 8 2 0 "blue")].
Proof. reflexivity. Qed.

Example after_game2_standings_games :
  get_standings "games" after_game2 =
  Returned [("B", 8, 2, (8 / 2)%Q, 0); ("A", 6, 1, (6 / 1)%Q, 1)] after_game2.
Proof. reflexivity. Qed.

Example after_game2_standings_average :
  get_standings "average" after_game2 =
  Returned [("A", 6, 1, (6 / 1)%Q, 1); ("B", 8, 2, (8 / 2)%Q, 0)] after_game2.
Proof. reflexivity. Qed.

(** ** Facts about ordered dictionaries *)

Module DictFacts.
Section Facts.
Context {V : Type}.
Implicit Types (d : Dict.t V) (k : string) (v : V).

Lemma get_set_same d k v : Dict.get (Dict.set d k v) k = Some v.
Proof.
  induction d as [| [k' v'] d IH]; simpl.
  - now rewrite String.eqb_refl.
  - destruct (String.eqb k' k) eqn:E; simpl; rewrite E; auto.
Qed.

Lemma get_set_other d k k' v :
  k <> k' -> Dict.get (Dict.set d k v) k' = Dict.get d k'.
Proof.
  intros Hne. induction d as [| [k0 v0] d IH]; simpl.
  - apply String.eqb_neq in Hne. now rewrite Hne.
  - destruct (String.eqb k0 k) eqn:E; simpl.
    + apply String.eqb_eq in E. subst k0.
      apply String.eqb_neq in Hne. now rewrite Hne.
    + now rewrite IH.
Qed.

Lemma keys_set_present d k v v0 :
  Dict.get d k = Some v0 -> Dict.keys (Dict.set d k v) = Dict.keys d.
Proof.
  induction d as [| [k' v'] d IH]; simpl; [discriminate |].
  destruct (String.eqb k' k) eqn:E; simpl; intros Hget; [reflexivity |].
  f_equal. now apply IH.
Qed.

Lemma set_absent d k v :
  Dict.get d k = None -> Dict.set d k v = d ++ [(k, v)].
Proof.
  induction d as [| [k' v'] d IH]; simpl; [reflexivity |].
  destruct (String.eqb k' k); [discriminate |].
  intros Hget. now rewrite IH.
Qed.

Lemma get_In_keys d k v : Dict.get d k = Some v -> In k (Dict.keys d).
Proof.
  induction d as [| [k' v'] d IH]; simpl; [discriminate |].
  destruct (String.eqb k' k) eqn:E.
  - apply String.eqb_eq in E. now left.
  - right. now apply IH.
Qed.

Lemma get_In d k v : Dict.get d k = Some v -> In (k, v) d.
Proof.
  induction d as [| [k' v'] d IH]; simpl; [discriminate |].
  destruct (String.eqb k' k) eqn:E.
  - apply String.eqb_eq in E. intros [= ->]. subst. now left.
  - right. now apply IH.
Qed.

Lemma notin_keys_get d k : ~ In k (Dict.keys d) -> Dict.get d k = None.
Proof.
  intros Hnot. destruct (Dict.get d k) eqn:E; [| reflexivity].
  now apply get_In_keys in E.
Qed.

Lemma In_keys_get d k : In k (Dict.keys d) -> exists v, Dict.get d k = Some v.
Proof.
  intros Hin. destruct (Dict.get d k) eqn:E; [eauto |].
  exfalso. induction d as [| [k' v'] d IH]; simpl in *; [assumption |].
  destruct (String.eqb k' k) eqn:E'; [discriminate |].
  apply String.eqb_neq in E'. destruct Hin; auto.
Qed.

(** In a dictionary every listed item is the one its key gives. *)
Lemma wf_In_get d k v : Dict.wf d -> In (k, v) d -> Dict.get d k = Some v.
Proof.
  unfold Dict.wf. induction d as [| [k' v'] d IH]; simpl; [contradiction |].
  intros Hwf [Heq | Hin]; inversion Hwf as [| ? ? Hnot Hwf']; subst.
  - injection Heq as -> ->. now rewrite String.eqb_refl.
  - destruct (String.eqb k' k) eqn:E; [| now apply IH].
    apply String.eqb_eq in E. subst k'.
    exfalso. apply Hnot. apply in_map_iff. now exists (k, v).
Qed.

Lemma mem_true d k : Dict.mem d k = true <-> exists v, Dict.get d k = Some v.
Proof.
  unfold Dict.mem. destruct (Dict.get d k); split; eauto; try discriminate.
  intros [v [=]].
Qed.

Lemma mem_false d k : Dict.mem d k = false <-> Dict.get d k = None.
Proof.
  unfold Dict.mem. destruct (Dict.get d k); split; auto; discriminate.
Qed.

Lemma mem_keys d d' k :
  Dict.keys d = Dict.keys d' -> Dict.mem d k = Dict.mem d' k.
Proof.
  intros Hk.
  destruct (Dict.mem d k) eqn:E, (Dict.mem d' k) eqn:E'; auto; exfalso.
  - apply mem_true in E as [v Hv]. apply get_In_keys in Hv.
    rewrite Hk in Hv. apply In_keys_get in Hv as [v' Hv'].
    apply mem_false in E'. congruence.
  - apply mem_true in E' as [v Hv]. apply get_In_keys in Hv.
    rewrite <- Hk in Hv. apply In_keys_get in Hv as [v' Hv'].
    apply mem_false in E. congruence.
Qed.
End Facts.
End DictFacts.

(** ** What one call of [record_game_results] does to an entry *)

Ltac run := unfold bind, ret, raise, modify, get_state; simpl.

Section RecordGame.
Import DictFacts.

Lemma set_set {V} (d : Dict.t V) k v v' :
  Dict.set (Dict.set d k v) k v' = Dict.set d k v'.
Proof.
  induction d as [| [k0 v0] d IH]; simpl.
  - now rewrite String.eqb_refl.
  - destruct (String.eqb k0 k) eqn:E; simpl; rewrite E; [reflexivity |].
    now rewrite IH.
Qed.

Lemma credit_placement_dnp player L :
  credit_placement (player, "Did Not Play") L = Returned tt L.
Proof. reflexivity. Qed.

Lemma credit_placement_played player place d L :
  place <> "Did Not Play" ->
  Dict.get (players L) player = Some d ->
  credit_placement (player, place) L =
  Returned tt (mkLeague (Dict.set (players L) player (placed d place)) (history L)).
Proof.
  intros Hplace Hget. unfold credit_placement, placed.
  apply String.eqb_neq in Hplace. rewrite Hplace.
  unfold add_to_points, add_to_games_played, player_entry, store_entry. run.
  rewrite Hget. simpl. rewrite get_set_same. simpl. now rewrite set_set.
Qed.

Lemma credit_placement_keyerror player place L :
  place <> "Did Not Play" ->
  Dict.get (players L) player = None ->
  credit_placement (player, place) L = Raised (KeyError player) L.
Proof.
  intros Hplace Hget. unfold credit_placement.
  apply String.eqb_neq in Hplace. rewrite Hplace.
  unfold add_to_points, player_entry. run. now rewrite Hget.
Qed.

Lemma for_each_cons {S A} (x : A) rest (body : A -> M S unit) s :
  for_each (x :: rest) body s =
  match body x s with
  | Returned _ s' => for_each rest body s'
  | Raised e s' => Raised e s'
  end.
Proof. reflexivity. Qed.

Lemma for_each_app {S A} (l1 l2 : list A) (body : A -> M S unit) s s1 :
  for_each l1 body s = Returned tt s1 ->
  for_each (l1 ++ l2) body s = for_each l2 body s1.
Proof.
  revert s. induction l1 as [| x l1 IH]; intros s; simpl.
  - unfold ret. now intros [= ->].
  - unfold bind at 1 2. destruct (body x s) as [[] s' | e s']; [apply IH | discriminate].
Qed.

Lemma results_rostered_keys L L' results_dict :
  Dict.keys (players L') = Dict.keys (players L) ->
  results_rostered L results_dict -> results_rostered L' results_dict.
Proof.
  intros Hk Hok player place Hin Hne.
  rewrite (mem_keys _ _ _ Hk). now apply (Hok player place).
Qed.

(** The loop over a dictionary of results whose names are rostered
    returns, and replaces each entry by its [placed_by]. *)
Lemma credit_loop results_dict : forall L,
  Dict.wf results_dict ->
  results_rostered L results_dict ->
  exists ps,
    for_each results_dict credit_placement L = Returned tt (mkLeague ps (history L))
    /\ Dict.keys ps = Dict.keys (players L)
    /\ forall player d, Dict.get (players L) player = Some d ->
         Dict.get ps player = Some (placed_by results_dict player d).
Proof.
  induction results_dict as [| [q place] rest IH]; intros L Hwf Hok.
  - exists (players L). destruct L. simpl. repeat split; auto.
  - inversion Hwf as [| ? ? Hnotin Hwf']; subst.
    assert (Hrest : results_rostered L rest).
    { intros p pl Hin. apply Hok. now right. }
    rewrite for_each_cons.
    destruct (String.eqb_spec place "Did Not Play") as [-> | Hplace].
    + rewrite credit_placement_dnp.
      destruct (IH L Hwf' Hrest) as (ps & Hrun & Hkeys & Hget).
      exists ps. repeat split; auto.
      intros player d Hd. rewrite (Hget _ _ Hd).
      unfold placed_by. simpl.
      destruct (String.eqb_spec q player) as [-> | Hne]; [| reflexivity].
      now rewrite (notin_keys_get _ _ Hnotin).
    + assert (Hq : Dict.mem (players L) q = true).
      { apply (Hok q place); [now left | assumption]. }
      apply mem_true in Hq as [dq Hdq].
      rewrite (credit_placement_played _ _ _ _ Hplace Hdq).
      set (L1 := mkLeague _ _).
      assert (Hk1 : Dict.keys (players L1) = Dict.keys (players L)).
      { apply keys_set_present with dq. assumption. }
      destruct (IH L1 Hwf' (results_rostered_keys _ _ _ Hk1 Hrest))
        as (ps & Hrun & Hkeys & Hget).
      exists ps. repeat split; [assumption | congruence |].
      intros player d Hd. unfold placed_by. simpl.
      destruct (String.eqb_spec q player) as [<- | Hne].
      * assert (d = dq) by congruence. subst d.
        rewrite (Hget q (placed dq place)).
        -- unfold placed_by. now rewrite (notin_keys_get _ _ Hnotin).
        -- apply get_set_same.
      * apply Hget. simpl. now rewrite get_set_other.
Qed.
End RecordGame.

Section RecordGameEffect.
Import DictFacts.

Lemma is_mvp_keys L L' mvp player :
  Dict.keys (players L') = Dict.keys (players L) ->
  is_mvp L' mvp player = is_mvp L mvp player.
Proof. intros Hk. unfold is_mvp. now rewrite (mem_keys _ _ mvp Hk). Qed.

(** The MVP block returns, and touches the entry of the MVP only. *)
Lemma credit_mvp_effect mvp L :
  exists ps,
    credit_mvp mvp L = Returned tt (mkLeague ps (history L))
    /\ Dict.keys ps = Dict.keys (players L)
    /\ forall player d, Dict.get (players L) player = Some d ->
         Dict.get ps player =
         Some (if is_mvp L mvp player then mvp_awarded d else d).
Proof.
  unfold credit_mvp, is_mvp. run.
  destruct (negb (mvp =? "")%string && Dict.mem (players L) mvp) eqn:Htest.
  - apply andb_true_iff in Htest as [_ Hmem].
    apply mem_true in Hmem as [dm Hdm].
    unfold add_to_points, add_to_mvp_count, player_entry, store_entry. run.
    rewrite Hdm. simpl. rewrite get_set_same. simpl. rewrite set_set.
    eexists. split; [reflexivity |]. split.
    + now apply keys_set_present with dm.
    + intros player d Hd.
      destruct (String.eqb_spec mvp player) as [<- | Hne].
      * rewrite get_set_same. f_equal.
        assert (d = dm) by congruence. now subst d.
      * now rewrite get_set_other.
  - exists (players L). destruct L. simpl. repeat split; auto.
Qed.

(** The whole call, for results whose names are rostered. *)
Lemma record_game_results_effect now results_dict notes mvp deck_used L :
  Dict.wf results_dict ->
  results_rostered L results_dict ->
  exists ps,
    record_game_results now results_dict notes mvp deck_used L =
    Returned tt
      (mkLeague ps
         (history L ++ [mkGameRecord now results_dict notes mvp deck_used]))
    /\ Dict.keys ps = Dict.keys (players L)
    /\ forall player d, Dict.get (players L) player = Some d ->
         Dict.get ps player =
         Some (let d1 := placed_by results_dict player d in
               if is_mvp L mvp player then mvp_awarded d1 else d1).
Proof.
  intros Hwf Hok. unfold record_game_results, history_append.
  set (game := mkGameRecord _ _ _ _ _).
  set (L0 := mkLeague (players L) (history L ++ [game])).
  destruct (credit_loop results_dict L0 Hwf) as (ps1 & Hloop & Hk1 & Hg1).
  { apply results_rostered_keys with L; auto. }
  destruct (credit_mvp_effect mvp (mkLeague ps1 (history L0)))
    as (ps2 & Hmvp & Hk2 & Hg2).
  exists ps2. unfold bind at 1. unfold modify. fold L0.
  unfold bind. rewrite Hloop, Hmvp. simpl in *.
  split; [reflexivity |]. split; [congruence |].
  intros player d Hd.
  rewrite (Hg2 player (placed_by results_dict player d)); [| now apply Hg1].
  f_equal. simpl.
  now rewrite (is_mvp_keys L (mkLeague ps1 (history L ++ [game])) mvp player Hk1).
Qed.
End RecordGameEffect.

(** ** Placement tags and the table of awards *)

Lemma placed_tag d t :
  placed d (tag t) =
  match t with
  | DidNotPlay => d
  | _ => mkPlayerData (points d + fixed_award t) (games_played d + 1)
                      (mvp_count d) (color d)
  end.
Proof. destruct t; reflexivity. Qed.

Lemma mvp_count_placed_by results_dict player d :
  mvp_count (placed_by results_dict player d) = mvp_count d.
Proof.
  unfold placed_by, placed.
  destruct (Dict.get results_dict player) as [place |]; [| reflexivity].
  now destruct (place =? "Did Not Play")%string.
Qed.

Lemma maps_roster_rostered L results_dict :
  Dict.keys results_dict = Dict.keys (players L) -> results_rostered L results_dict.
Proof.
  intros Hk player place Hin _.
  apply DictFacts.mem_true. apply DictFacts.In_keys_get.
  rewrite <- Hk. apply in_map_iff. now exists (player, place).
Qed.

(** C1, as stated, fails: the MVP of a game is credited whatever the
    placement.  With roster A, B, the results A=1st, B="Did Not Play" and
    MVP B, the call returns and B, who did not play, has one more point and
    one more MVP award. *)
Lemma placement_effect_without_mvp_fails :
  maps_roster_to_tags roster_AB game_B_absent /\
  exists L',
    record_game_results "2024-01-01 20:00:00" game_B_absent "" "B" "" roster_AB
    = Returned tt L' /\
    Dict.get (players L') "B" = Some (mkPlayerData 1 0 1 "blue") /\
    ~ placement_effect_without_mvp roster_AB L' game_B_absent.
Proof.
  split.
  - split; [reflexivity |].
    intros player place [[= <- <-] | [[= <- <-] | []]];
      [now exists First | now exists DidNotPlay].
  - eexists. split; [reflexivity |]. split; [reflexivity |].
    intros Hclaim.
    destruct (Hclaim "B" (mkPlayerData 0 0 0 "blue") DidNotPlay eq_refl eq_refl)
      as (d' & Hget & Hpoints & _).
    vm_compute in Hget. injection Hget as <-. discriminate Hpoints.
Qed.

(** C1, amended: for a call of [record_game_results] whose results give
    placements to rostered names only, a rostered player whose tag is one of
    1st, 2nd, 3rd, 4th, 5th+ has [games_played] increased by exactly 1 and
    [points] increased by exactly the fixed award (5, 3, 2, 1, 0), plus 1 when
    the player is the credited MVP of the game; a player tagged
    "Did Not Play" has [games_played] unchanged, and [points] and
    [mvp_count] unchanged unless the player is the credited MVP, who gains 1
    of each. *)
Theorem record_game_results_placement
    now results_dict notes mvp deck_used L player d t :
  Dict.wf results_dict ->
  results_rostered L results_dict ->
  Dict.get (players L) player = Some d ->
  Dict.get results_dict player = Some (tag t) ->
  exists L' d',
    record_game_results now results_dict notes mvp deck_used L = Returned tt L' /\
    Dict.get (players L') player = Some d' /\
    color d' = color d /\
    mvp_count d' = mvp_count d + mvp_bonus L mvp player /\
    match t with
    | DidNotPlay =>
        games_played d' = games_played d /\
        points d' = points d + mvp_bonus L mvp player
    | _ =>
        games_played d' = games_played d + 1 /\
        points d' = points d + fixed_award t + mvp_bonus L mvp player
    end.
Proof.
  intros Hwf Hok Hd Hplace.
  destruct (record_game_results_effect now results_dict notes mvp deck_used L Hwf Hok)
    as (ps & Hrun & _ & Hget).
  eexists. eexists. split; [exact Hrun |]. split; [apply (Hget _ _ Hd) |].
  unfold placed_by, mvp_bonus. rewrite Hplace, placed_tag. simpl.
  destruct (is_mvp L mvp player), t; simpl; repeat split; lia.
Qed.

Lemma game1_wf : Dict.wf game1.
Proof.
  unfold Dict.wf. simpl. repeat constructor; simpl; intuition discriminate.
Defined.

Lemma game1_rostered : results_rostered roster_AB game1.
Proof.
  intros player place [[= <- <-] | [[= <- <-] | []]] _; reflexivity.
Defined.

Lemma record_game_results_placement_witness :
  exists L' d',
    record_game_results "2024-01-01 20:00:00" game1 "" "A" "" roster_AB
    = Returned tt L' /\
    Dict.get (players L') "A" = Some d' /\
    color d' = "red" /\
    mvp_count d' = 0 + mvp_bonus roster_AB "A" "A" /\
    games_played d' = 0 + 1 /\
    points d' = 0 + 5 + mvp_bonus roster_AB "A" "A".
Proof.
  exact (record_game_results_placement "2024-01-01 20:00:00" game1 "" "A" ""
           roster_AB "A" (mkPlayerData 0 0 0 "red") First
           game1_wf game1_rostered eq_refl eq_refl).
Defined.

(** C2, as stated, fails for a call that raises.  With roster A, B, C, the
    results A=1st, Zed=2nd, B=3rd and MVP C, the loop raises [KeyError] at
    Zed before the MVP block runs: C, a non-empty name of the roster, gains
    neither the point nor the award. *)
Lemma mvp_not_credited_on_keyerror :
  "C" <> "" /\
  Dict.get (players roster_ABC) "C" = Some (mkPlayerData 0 0 0 "green") /\
  exists L',
    record_game_results "2024-01-01 20:00:00" game_ghost "" "C" "" roster_ABC
    = Raised (KeyError "Zed") L' /\
    Dict.get (players L') "C" = Some (mkPlayerData 0 0 0 "green") /\
    ~ mvp_credited roster_ABC L' game_ghost "C".
Proof.
  split; [discriminate |]. split; [reflexivity |].
  eexists. split; [reflexivity |]. split; [reflexivity |].
  intros Hclaim.
  destruct (Hclaim (mkPlayerData 0 0 0 "green")) as (d' & Hget & Hmvp & _);
    [discriminate | reflexivity |].
  vm_compute in Hget. injection Hget as <-. discriminate Hmvp.
Qed.

(** C2, amended: a call of [record_game_results] whose results give
    placements to rostered names only (so that the loop raises no
    [KeyError]) returns, and
    - if [mvp] is a non-empty name of the roster, the entry of that player
      ends with exactly 1 point more than the placement of the game gives
      it, whatever that placement is (also none, or "Did Not Play"), and
      with [mvp_count] increased by exactly 1;
    - the entry of every player who is not that MVP, and of every player
      when [mvp] is empty or not in the roster, is what the placement alone
      gives it, [mvp_count] unchanged. *)
Theorem record_game_results_mvp now results_dict notes mvp deck_used L :
  Dict.wf results_dict ->
  results_rostered L results_dict ->
  exists L',
    record_game_results now results_dict notes mvp deck_used L = Returned tt L' /\
    (forall d,
        mvp <> "" ->
        Dict.get (players L) mvp = Some d ->
        exists d',
          Dict.get (players L') mvp = Some d' /\
          points d' = points (placed_by results_dict mvp d) + 1 /\
          mvp_count d' = mvp_count d + 1 /\
          games_played d' = games_played (placed_by results_dict mvp d)) /\
    (forall player d,
        mvp = "" \/ Dict.get (players L) mvp = None \/ player <> mvp ->
        Dict.get (players L) player = Some d ->
        Dict.get (players L') player = Some (placed_by results_dict player d) /\
        mvp_count (placed_by results_dict player d) = mvp_count d).
Proof.
  intros Hwf Hok.
  destruct (record_game_results_effect now results_dict notes mvp deck_used L Hwf Hok)
    as (ps & Hrun & _ & Hget).
  eexists. split; [exact Hrun |]. simpl. split.
  - intros d Hne Hd. eexists. split; [apply (Hget _ _ Hd) |].
    unfold is_mvp, Dict.mem. rewrite Hd, String.eqb_refl.
    apply String.eqb_neq in Hne. rewrite Hne. simpl.
    rewrite mvp_count_placed_by. auto.
  - intros player d Hcase Hd. split; [| apply mvp_count_placed_by].
    rewrite (Hget _ _ Hd). simpl.
    replace (is_mvp L mvp player) with false; [reflexivity |].
    unfold is_mvp. destruct Hcase as [-> | [Hnone | Hne]].
    + reflexivity.
    + apply DictFacts.mem_false in Hnone. rewrite Hnone.
      now rewrite andb_false_r.
    + assert (Hne' : mvp <> player) by congruence.
      apply String.eqb_neq in Hne'. rewrite Hne'. now rewrite andb_false_r.
Qed.

Lemma record_game_results_mvp_witness :
  exists L',
    record_game_results "2024-01-01 20:00:00" game1 "" "A" "" roster_AB
    = Returned tt L' /\
    (forall d,
        "A" <> "" ->
        Dict.get (players roster_AB) "A" = Some d ->
        exists d',
          Dict.get (players L') "A" = Some d' /\
          points d' = points (placed_by game1 "A" d) + 1 /\
          mvp_count d' = mvp_count d + 1 /\
          games_played d' = games_played (placed_by game1 "A" d)) /\
    (forall player d,
        "A" = "" \/ Dict.get (players roster_AB) "A" = None \/ player <> "A" ->
        Dict.get (players roster_AB) player = Some d ->
        Dict.get (players L') player = Some (placed_by game1 player d) /\
        mvp_count (placed_by game1 player d) = mvp_count d).
Proof.
  exact (record_game_results_mvp "2024-01-01 20:00:00" game1 "" "A" ""
           roster_AB game1_wf game1_rostered).
Defined.

Lemma unknown_tag_award place :
  ~ In place known_tags -> Dict.get_default placement_points place 0 = 0.
Proof.
  intros Hnot. unfold Dict.get_default.
  now rewrite (DictFacts.notin_keys_get placement_points place Hnot).
Qed.

(** C10, as stated, fails for a call that raises.  With roster A, B and the
    results Zed=1st, A=winner the loop raises [KeyError] at Zed before it
    meets A: A, rostered and given a tag outside the table, has no game
    more. *)
Lemma unknown_tag_not_counted_on_keyerror :
  Dict.get (players roster_AB) "A" = Some (mkPlayerData 0 0 0 "red") /\
  Dict.get game_ghost_odd "A" = Some "winner" /\
  "winner" <> "Did Not Play" /\
  ~ In "winner" known_tags /\
  exists L',
    record_game_results "2024-01-01 20:00:00" game_ghost_odd "" "" "" roster_AB
    = Raised (KeyError "Zed") L' /\
    Dict.get (players L') "A" = Some (mkPlayerData 0 0 0 "red") /\
    ~ unknown_tag_counted roster_AB L' "" "A".
Proof.
  split; [reflexivity |]. split; [reflexivity |]. split; [discriminate |].
  split; [simpl; intuition discriminate |].
  eexists. split; [reflexivity |]. split; [reflexivity |].
  intros Hclaim.
  destruct (Hclaim (mkPlayerData 0 0 0 "red") eq_refl) as (d' & Hget & Hgames & _).
  vm_compute in Hget. injection Hget as <-. discriminate Hgames.
Qed.

(** C10, amended: in a call of [record_game_results] whose results give
    placements to rostered names only (so that the loop raises no
    [KeyError]), when a rostered player's tag is neither "Did Not Play" nor
    one of 1st, 2nd, 3rd, 4th, 5th+, the table gives the default 0 and the
    call credits the placement with 0 points, yet counts the game: the entry
    ends with [games_played] increased by 1 and with the points it had (one
    more only if the player is also the credited MVP, who gets the MVP
    point). *)
Theorem record_game_results_unknown_tag
    now results_dict notes mvp deck_used L player d place :
  Dict.wf results_dict ->
  results_rostered L results_dict ->
  Dict.get (players L) player = Some d ->
  Dict.get results_dict player = Some place ->
  place <> "Did Not Play" ->
  ~ In place known_tags ->
  Dict.get_default placement_points place 0 = 0 /\
  placed d place = set_games_played d (games_played d + 1) /\
  exists L' d',
    record_game_results now results_dict notes mvp deck_used L = Returned tt L' /\
    Dict.get (players L') player = Some d' /\
    games_played d' = games_played d + 1 /\
    points d' = points d + mvp_bonus L mvp player /\
    (is_mvp L mvp player = false -> points d' = points d).
Proof.
  intros Hwf Hok Hd Hplace Hplayed Hunknown.
  pose proof (unknown_tag_award place Hunknown) as Haward.
  assert (Hplaced : placed d place = set_games_played d (games_played d + 1)).
  { unfold placed, set_games_played. apply String.eqb_neq in Hplayed.
    rewrite Hplayed, Haward. f_equal. lia. }
  split; [assumption |]. split; [assumption |].
  destruct (record_game_results_effect now results_dict notes mvp deck_used L Hwf Hok)
    as (ps & Hrun & _ & Hget).
  eexists. eexists. split; [exact Hrun |]. split; [apply (Hget _ _ Hd) |].
  unfold placed_by, mvp_bonus. rewrite Hplace, Hplaced. simpl.
  destruct (is_mvp L mvp player); simpl; repeat split; intros; try lia;
    discriminate.
Qed.

Lemma game_odd_tag_wf : Dict.wf game_odd_tag.
Proof.
  unfold Dict.wf. simpl. repeat constructor; simpl; intuition discriminate.
Defined.

Lemma game_odd_tag_rostered : results_rostered roster_AB game_odd_tag.
Proof.
  intros player place [[= <- <-] | [[= <- <-] | []]] _; reflexivity.
Defined.

Lemma winner_unknown : ~ In "winner" known_tags.
Proof. simpl. intuition discriminate. Defined.

Lemma winner_played : "winner" <> "Did Not Play".
Proof. discriminate. Defined.

Lemma record_game_results_unknown_tag_witness :
  Dict.get_default placement_points "winner" 0 = 0 /\
  placed (mkPlayerData 0 0 0 "red") "winner" =
  set_games_played (mkPlayerData 0 0 0 "red") (0 + 1) /\
  exists L' d',
    record_game_results "2024-01-01 20:00:00" game_odd_tag "" "B" "" roster_AB
    = Returned tt L' /\
    Dict.get (players L') "A" = Some d' /\
    games_played d' = 0 + 1 /\
    points d' = 0 + mvp_bonus roster_AB "B" "A" /\
    (is_mvp roster_AB "B" "A" = false -> points d' = 0).
Proof.
  exact (record_game_results_unknown_tag "2024-01-01 20:00:00" game_odd_tag "" "B" ""
           roster_AB "A" (mkPlayerData 0 0 0 "red") "winner"
           game_odd_tag_wf game_odd_tag_rostered eq_refl eq_refl
           winner_played winner_unknown).
Defined.

(** ** A placement for a name outside the roster *)

(** The first such entry, in the order of iteration. *)
Lemma first_unrostered_entry L (results_dict : Dict.t string) :
  (exists entry, In entry results_dict /\ unrostered_entry L entry = true) ->
  exists pre name place post,
    results_dict = pre ++ (name, place) :: post /\
    unrostered_entry L (name, place) = true /\
    results_rostered L pre.
Proof.
  induction results_dict as [| [q pl] rest IH]; intros (entry & Hin & Hbad).
  - destruct Hin.
  - destruct (unrostered_entry L (q, pl)) eqn:Hq.
    + exists [], q, pl, rest. repeat split; auto. intros ? ? [].
    + destruct Hin as [<- | Hin]; [congruence |].
      destruct IH as (pre & name & place & post & -> & Hbad' & Hpre); [eauto |].
      exists ((q, pl) :: pre), name, place, post. repeat split; auto.
      intros player p [[= <- <-] | Hin'] Hne; [| now apply (Hpre player p)].
      unfold unrostered_entry in Hq. simpl in Hq.
      apply String.eqb_neq in Hne. rewrite Hne in Hq. simpl in Hq.
      now apply negb_false_iff in Hq.
Qed.

Lemma wf_prefix {V} (pre post : Dict.t V) : Dict.wf (pre ++ post) -> Dict.wf pre.
Proof.
  unfold Dict.wf, Dict.keys. rewrite map_app. apply NoDup_app_remove_r.
Qed.

(** C9: when the results give a placement other than "Did Not Play" to a
    name that is not in the roster, [record_game_results] raises [KeyError]
    at the first such entry [culprit] of the iteration.  The state it leaves
    has the new record appended to the history and the entries of the
    players that the iteration met before [culprit] already credited (one
    more game, the points of the tag); the MVP block has not run.  The call
    is not atomic: the state differs from the one it started in. *)
Theorem record_game_results_keyerror
    now results_dict notes mvp deck_used L name place :
  Dict.wf results_dict ->
  In (name, place) results_dict ->
  place <> "Did Not Play" ->
  Dict.mem (players L) name = false ->
  exists culprit cplace pre post L',
    results_dict = pre ++ (culprit, cplace) :: post /\
    cplace <> "Did Not Play" /\
    Dict.mem (players L) culprit = false /\
    record_game_results now results_dict notes mvp deck_used L
    = Raised (KeyError culprit) L' /\
    history L' =
    history L ++ [mkGameRecord now results_dict notes mvp deck_used] /\
    L' <> L /\
    (forall player d,
        Dict.get (players L) player = Some d ->
        Dict.get (players L') player = Some (placed_by pre player d)) /\
    (forall player pl d,
        In (player, pl) pre ->
        pl <> "Did Not Play" ->
        Dict.get (players L) player = Some d ->
        exists d',
          Dict.get (players L') player = Some d' /\
          games_played d' = games_played d + 1 /\
          points d' = points d + Dict.get_default placement_points pl 0).
Proof.
  intros Hwf Hin Hplace Hmem.
  destruct (first_unrostered_entry L results_dict)
    as (pre & culprit & cplace & post & Hsplit & Hbad & Hpre).
  { exists (name, place). split; [assumption |].
    unfold unrostered_entry. simpl.
    apply String.eqb_neq in Hplace. now rewrite Hplace, Hmem. }
  unfold unrostered_entry in Hbad. simpl in Hbad.
  apply andb_true_iff in Hbad as [Hcplace Hcmem].
  apply negb_true_iff in Hcplace, Hcmem. apply String.eqb_neq in Hcplace.
  assert (Hwfpre : Dict.wf pre) by (subst; now apply wf_prefix in Hwf).
  set (game := mkGameRecord now results_dict notes mvp deck_used).
  set (L0 := mkLeague (players L) (history L ++ [game])).
  destruct (credit_loop pre L0 Hwfpre) as (ps & Hloop & Hkeys & Hget).
  { now apply results_rostered_keys with L. }
  exists culprit, cplace, pre, post, (mkLeague ps (history L0)).
  assert (Hraise : record_game_results now results_dict notes mvp deck_used L
                   = Raised (KeyError culprit) (mkLeague ps (history L0))).
  { unfold record_game_results, history_append. fold game.
    unfold bind at 1. unfold modify. fold L0. unfold bind at 1.
    rewrite Hsplit. rewrite (for_each_app _ _ _ _ _ Hloop), for_each_cons.
    rewrite credit_placement_keyerror; [reflexivity | assumption |].
    apply DictFacts.mem_false.
    rewrite (DictFacts.mem_keys ps (players L)); [assumption |].
    exact Hkeys. }
  repeat split; auto.
  - intros Heq. apply (f_equal history) in Heq. simpl in Heq.
    apply (f_equal (@List.length _)) in Heq. rewrite length_app in Heq.
    simpl in Heq. lia.
  - intros player pl d Hinpre Hpl Hd.
    eexists. split; [apply (Hget _ _ Hd) |].
    unfold placed_by. rewrite (DictFacts.wf_In_get pre player pl Hwfpre Hinpre).
    unfold placed. apply String.eqb_neq in Hpl. rewrite Hpl. simpl. auto.
Qed.

Lemma game_ghost_wf : Dict.wf game_ghost.
Proof.
  unfold Dict.wf. simpl. repeat constructor; simpl; intuition discriminate.
Defined.

Lemma second_played : "2nd" <> "Did Not Play".
Proof. discriminate. Defined.

Lemma Zed_in_game_ghost : In ("Zed", "2nd") game_ghost.
Proof. right. left. reflexivity. Defined.

Lemma record_game_results_keyerror_witness :
  exists culprit cplace pre post L',
    game_ghost = pre ++ (culprit, cplace) :: post /\
    cplace <> "Did Not Play" /\
    Dict.mem (players roster_ABC) culprit = false /\
    record_game_results "2024-01-01 20:00:00" game_ghost "" "C" "" roster_ABC
    = Raised (KeyError culprit) L' /\
    history L' =
    history roster_ABC ++ [mkGameRecord "2024-01-01 20:00:00" game_ghost "" "C" ""] /\
    L' <> roster_ABC /\
    (forall player d,
        Dict.get (players roster_ABC) player = Some d ->
        Dict.get (players L') player = Some (placed_by pre player d)) /\
    (forall player pl d,
        In (player, pl) pre ->
        pl <> "Did Not Play" ->
        Dict.get (players roster_ABC) player = Some d ->
        exists d',
          Dict.get (players L') player = Some d' /\
          games_played d' = games_played d + 1 /\
          points d' = points d + Dict.get_default placement_points pl 0).
Proof.
  exact (record_game_results_keyerror "2024-01-01 20:00:00" game_ghost "" "C" ""
           roster_ABC "Zed" "2nd" game_ghost_wf Zed_in_game_ghost
           second_played eq_refl).
Defined.

(** The same call, run: A was met first and is credited, the record is in
    the history, C (the MVP) got nothing. *)
Example record_game_results_keyerror_run :
  record_game_results "2024-01-01 20:00:00" game_ghost "" "C" "" roster_ABC
  = Raised (KeyError "Zed")
      (mkLeague [("A", mkPlayerData 5 1 0 "red"); ("B", mkPlayerData 0 0 0 "blue");
                 ("C", mkPlayerData 0 0 0 "green")]
                [mkGameRecord "2024-01-01 20:00:00" game_ghost "" "C" ""]).
Proof. reflexivity. Qed.

(** ** The stable descending sort *)

Section PySortedFacts.
Context {A K : Type} (lt : K -> K -> bool) (key : A -> K).
Hypothesis lt_asym : forall a b, lt a b = true -> lt b a = false.
Hypothesis ge_trans :
  forall a b c, lt a b = false -> lt b c = false -> lt a c = false.

Lemma insert_reverse_perm x l : Permutation (insert_reverse lt key x l) (x :: l).
Proof.
  induction l as [| y l IH]; simpl; [reflexivity |].
  destruct (lt (key x) (key y)); [| reflexivity].
  rewrite IH. apply perm_swap.
Qed.

Lemma sorted_reverse_perm l : Permutation (sorted_reverse lt key l) l.
Proof.
  induction l as [| x l IH]; simpl; [reflexivity |].
  rewrite insert_reverse_perm. now constructor.
Qed.

Lemma insert_reverse_desc x l :
  StronglySorted (desc lt key) l -> StronglySorted (desc lt key) (insert_reverse lt key x l).
Proof.
  induction 1 as [| y l Hsorted IH Hall]; simpl.
  - repeat constructor.
  - destruct (lt (key x) (key y)) eqn:Hlt.
    + constructor; [assumption |].
      rewrite (insert_reverse_perm x l). constructor; [| assumption].
      now apply lt_asym.
    + constructor; [now constructor |].
      constructor; [assumption |].
      apply Forall_impl with (2 := Hall).
      intros z Hz. now apply ge_trans with (key y).
Qed.

Lemma sorted_reverse_desc l : StronglySorted (desc lt key) (sorted_reverse lt key l).
Proof.
  induction l as [| x l IH]; simpl; [constructor |].
  now apply insert_reverse_desc.
Qed.

(** Stability: the elements whose keys compare equal to [k] come out in the
    order they came in. *)
Lemma insert_reverse_ties k x l :
  filter (ties lt key k) (insert_reverse lt key x l) =
  filter (ties lt key k) (x :: l).
Proof.
  induction l as [| y l IH]; [reflexivity |].
  cbn [insert_reverse]. destruct (lt (key x) (key y)) eqn:Hlt; [| reflexivity].
  cbn [filter] in *. rewrite IH.
  destruct (ties lt key k x) eqn:Hx, (ties lt key k y) eqn:Hy; try reflexivity.
  unfold ties in Hx, Hy.
  apply andb_true_iff in Hx as [_ Hxk]. apply andb_true_iff in Hy as [Hky _].
  apply negb_true_iff in Hxk, Hky.
  rewrite (ge_trans _ _ _ Hxk Hky) in Hlt. discriminate.
Qed.

Lemma sorted_reverse_stable k l :
  filter (ties lt key k) (sorted_reverse lt key l) = filter (ties lt key k) l.
Proof.
  induction l as [| x l IH]; [reflexivity |].
  cbn [sorted_reverse fold_right]. rewrite insert_reverse_ties.
  cbn [filter]. fold (sorted_reverse lt key l). now rewrite IH.
Qed.
End PySortedFacts.

(** ** Standings *)

Lemma traverse_Forall2 {A B} (f : A -> option B) (l : list A) : forall rs,
  traverse f l = Some rs <-> Forall2 (fun x y => f x = Some y) l rs.
Proof.
  induction l as [| x l IH]; intros rs; cbn [traverse].
  - split; [intros [= <-]; constructor | intros Hall; now inversion Hall].
  - destruct (f x) as [y |] eqn:Hfx; cbn [opt_bind].
    + destruct (traverse f l) as [ys |] eqn:Hl; cbn [opt_bind].
      * split.
        -- intros [= <-]. constructor; [assumption | now apply IH].
        -- intros Hall. inversion Hall as [| ? y' ? ys' Hy Hys]; subst.
           apply IH in Hys. congruence.
      * split; [discriminate |].
        intros Hall. inversion Hall as [| ? y' ? ys' Hy Hys]; subst.
        apply IH in Hys. discriminate.
    + split; [discriminate |].
      intros Hall. inversion Hall; subst. congruence.
Qed.

Section StandingsFacts.
Context {F : Type} `{PyNumber F}.

(** The guard [games > 0] keeps the division away from a zero divisor; the
    loop returns the tuples of the roster unless a quotient is no float. *)
Lemma standings_loop_run items : forall standings L,
  standings_loop items standings L =
  match traverse standing items with
  | Some rs => Returned (standings ++ rs) L
  | None => Raised OverflowError L
  end.
Proof.
  induction items as [| [player d] items IH]; intros standings L.
  - cbn [standings_loop traverse]. unfold ret. now rewrite app_nil_r.
  - cbn [standings_loop traverse]. unfold standing at 1, average.
    unfold bind at 1.
    destruct (Z.gtb_spec (games_played d) 0) as [Hpos | Hnot].
    + unfold py_truediv.
      destruct (Z.eqb_spec (games_played d) 0) as [H0 | _]; [lia |].
      destruct (truediv (points d) (games_played d)) as [q |];
        [| reflexivity].
      unfold ret at 1. rewrite IH. cbn [opt_bind].
      destruct (traverse standing items) as [rs |]; [| reflexivity].
      cbn [opt_bind]. now rewrite <- app_assoc.
    + unfold ret at 1. rewrite IH. cbn [opt_bind].
      destruct (traverse standing items) as [rs |]; [| reflexivity].
      cbn [opt_bind]. now rewrite <- app_assoc.
Qed.

Lemma Z_ltb_asym (a b : Z) : (a <? b) = true -> (b <? a) = false.
Proof. rewrite Z.ltb_lt, Z.ltb_ge. lia. Qed.

Lemma Z_ge_trans (a b c : Z) :
  (a <? b) = false -> (b <? c) = false -> (a <? c) = false.
Proof. rewrite !Z.ltb_ge. lia. Qed.

(** The outcome of the call, before any property of the order: the sorted
    tuples, or [OverflowError]; in both cases the league is as it was. *)
Lemma get_standings_run sort_by L :
  get_standings sort_by L =
  match roster_standings L with
  | Some rows0 => Returned (sorted_rows sort_by rows0) L
  | None => Raised OverflowError L
  end.
Proof.
  unfold get_standings, roster_standings, sorted_rows.
  unfold bind at 1, get_state. unfold bind at 1.
  rewrite standings_loop_run.
  destruct (traverse standing (players L)) as [rows0 |]; [| reflexivity].
  cbn [app]. unfold ret. now destruct (sort_by =? "games")%string.
Qed.

Lemma sorted_rows_perm sort_by (rows0 : list (row F)) :
  Permutation (sorted_rows sort_by rows0) rows0.
Proof.
  unfold sorted_rows. destruct (sort_by =? "games")%string; apply sorted_reverse_perm.
Qed.

Lemma standings_in_range (items : list (string * PlayerData)) :
  (forall player d, In (player, d) items -> games_played d > 0 ->
                    truediv (points d) (games_played d) <> None) ->
  exists rows0, traverse standing items = Some rows0.
Proof.
  induction items as [| [player d] items IH]; intros Hrange.
  - now exists [].
  - destruct IH as [rows0 Hrows0].
    { intros p e Hin. apply (Hrange p e). now right. }
    cbn [traverse]. rewrite Hrows0. unfold standing, average.
    destruct (Z.gtb_spec (games_played d) 0) as [Hpos | Hnot].
    + destruct (truediv (points d) (games_played d)) as [q |] eqn:Hq.
      * cbn [opt_bind]. eexists. reflexivity.
      * exfalso. apply (Hrange player d); [now left | lia | assumption].
    + cbn [opt_bind]. eexists. reflexivity.
Qed.

Lemma in_float_range_returns sort_by L :
  in_float_range L ->
  exists rows0,
    roster_standings L = Some rows0 /\
    get_standings sort_by L = Returned (sorted_rows sort_by rows0) L.
Proof.
  intros Hrange. destruct (standings_in_range (players L) Hrange) as [rows0 Hrows0].
  exists rows0. split; [exact Hrows0 |].
  rewrite get_standings_run. unfold roster_standings. now rewrite Hrows0.
Qed.

Lemma returned_standings sort_by L rows L' :
  get_standings sort_by L = Returned rows L' ->
  exists rows0,
    roster_standings L = Some rows0 /\ rows = sorted_rows sort_by rows0 /\ L' = L.
Proof.
  rewrite get_standings_run.
  destruct (roster_standings L) as [rows0 |]; [| discriminate].
  intros [= <- <-]. eauto.
Qed.

Lemma standing_fields player d (x : row F) :
  standing (player, d) = Some x ->
  row_player x = player /\ row_points x = points d /\
  row_games x = games_played d /\ row_mvp_count x = mvp_count d /\
  average d = Some (row_avg x).
Proof.
  unfold standing. destruct (average d) as [avg |]; [| discriminate].
  intros [= <-]. repeat split.
Qed.

Lemma roster_standings_players items : forall rows0 : list (row F),
  traverse standing items = Some rows0 ->
  map row_player rows0 = Dict.keys items.
Proof.
  intros rows0 Hrows0. apply traverse_Forall2 in Hrows0.
  induction Hrows0 as [| [player d] x items rows0 Hx _ IH]; [reflexivity |].
  cbn [map Dict.keys fst]. apply standing_fields in Hx as (-> & _).
  f_equal. exact IH.
Qed.
End StandingsFacts.

Lemma StronglySorted_impl {A} (R R' : A -> A -> Prop) (l : list A) :
  (forall x y, R x y -> R' x y) -> StronglySorted R l -> StronglySorted R' l.
Proof.
  intros Himp. induction 1 as [| x l Hsorted IH Hall]; constructor; auto.
  apply Forall_impl with (2 := Hall). auto.
Qed.

Lemma Forall2_In_l {A B} (R : A -> B -> Prop) l l' x :
  Forall2 R l l' -> In x l -> exists y, In y l' /\ R x y.
Proof.
  induction 1 as [| a b l l' Hab _ IH]; intros Hin; [destruct Hin |].
  destruct Hin as [<- | Hin].
  - exists b. split; [now left | assumption].
  - destruct (IH Hin) as (y & Hy & Hxy). exists y. split; [now right | assumption].
Qed.

Lemma Forall2_In_r {A B} (R : A -> B -> Prop) l l' y :
  Forall2 R l l' -> In y l' -> exists x, In x l /\ R x y.
Proof.
  induction 1 as [| a b l l' Hab _ IH]; intros Hin; [destruct Hin |].
  destruct Hin as [<- | Hin].
  - exists a. split; [now left | assumption].
  - destruct (IH Hin) as (x & Hx & Hxy). exists x. split; [now right | assumption].
Qed.

Lemma league_huge_run (sort_by : string) :
  get_standings (F := Q) sort_by league_huge = Raised OverflowError league_huge.
Proof.
  rewrite get_standings_run.
  replace (roster_standings (F := Q) league_huge) with (@None (list (row Q)));
    [reflexivity |].
  vm_compute. reflexivity.
Qed.

(** C3, as stated, fails: [get_standings] does not return for every
    league.  With A at 10^400 points in 1 game the quotient is beyond the
    floats, the division raises [OverflowError] and no tuple is returned. *)
Lemma get_standings_overflow :
  get_standings (F := Q) "games" league_huge = Raised OverflowError league_huge /\
  ~ standings_returned (F := Q) "games" league_huge.
Proof.
  split; [apply league_huge_run |].
  intros [rows Hrows]. rewrite league_huge_run in Hrows. discriminate.
Qed.

(** C3, amended: for every league in which no quotient
    [points / games_played] is beyond the range of the floats, and every
    value of [sort_by], [get_standings] returns, leaves the league as it is,
    and its rows are the tuples (name, points, games_played, average,
    mvp_count) of the rostered players, one per player, in another order:
    descending in [games_played] when [sort_by] is "games", and descending
    in the average for "average" and for every other value. *)
Theorem get_standings_sorted {F : Type} {HF : PyNumber F}
    {HO : PyNumberOrder F} (sort_by : string) (L : League) :
  in_float_range L ->
  exists rows : list (row F),
    get_standings sort_by L = Returned rows L /\
    (exists rows0,
        Forall2 (fun item x => standing item = Some x) (players L) rows0 /\
        Permutation rows rows0) /\
    Permutation (map row_player rows) (Dict.keys (players L)) /\
    List.length rows = List.length (players L) /\
    (sort_by = "games" ->
     StronglySorted (fun x y => row_games x >= row_games y) rows) /\
    (sort_by <> "games" ->
     StronglySorted (fun x y => num_ge (row_avg x) (row_avg y) = true) rows).
Proof.
  intros Hrange.
  destruct (in_float_range_returns sort_by L Hrange) as (rows0 & Hrows0 & Hrun).
  exists (sorted_rows sort_by rows0). split; [exact Hrun |].
  pose proof (sorted_rows_perm sort_by rows0) as Hperm.
  pose proof (proj1 (traverse_Forall2 _ _ _) Hrows0) as Hall.
  split; [exists rows0; split; assumption |]. split; [| split; [| split]].
  - rewrite Hperm. now rewrite (roster_standings_players _ _ Hrows0).
  - rewrite (Permutation_length Hperm). symmetry. apply (Forall2_length Hall).
  - intros ->. unfold sorted_rows. simpl.
    eapply StronglySorted_impl;
      [| apply (sorted_reverse_desc Z.ltb row_games Z_ltb_asym Z_ge_trans)].
    simpl. intros x y Hxy. unfold desc in Hxy. apply Z.ltb_ge in Hxy. lia.
  - intros Hne. apply String.eqb_neq in Hne. unfold sorted_rows. rewrite Hne.
    eapply StronglySorted_impl;
      [| apply (sorted_reverse_desc num_lt row_avg num_lt_asym num_ge_trans)].
    simpl. intros x y Hxy. unfold desc in Hxy. unfold num_ge. now rewrite Hxy.
Qed.

Lemma after_game2_in_range : in_float_range (F := Q) after_game2.
Proof.
  intros player d [[= <- <-] | [[= <- <-] | []]] _; vm_compute; discriminate.
Defined.

Lemma roster_AB_in_range : in_float_range (F := Q) roster_AB.
Proof.
  intros player d [[= <- <-] | [[= <- <-] | []]] Hpos; simpl in Hpos; lia.
Defined.

Lemma get_standings_sorted_witness :
  exists rows : list (row Q),
    get_standings "games" after_game2 = Returned rows after_game2 /\
    (exists rows0,
        Forall2 (fun item x => standing item = Some x) (players after_game2) rows0 /\
        Permutation rows rows0) /\
    Permutation (map row_player rows) (Dict.keys (players after_game2)) /\
    List.length rows = List.length (players after_game2) /\
    ("games" = "games" ->
     StronglySorted (fun x y => row_games x >= row_games y) rows) /\
    ("games" <> "games" ->
     StronglySorted (fun x y => num_ge (row_avg x) (row_avg y) = true) rows).
Proof. exact (get_standings_sorted "games" after_game2 after_game2_in_range). Defined.

(** C7, as stated, fails: in [league_huge] B has played no game, yet
    [get_standings] reports no average for B: the quotient of A raises
    [OverflowError] and the call returns no row at all. *)
Lemma zero_games_not_reported :
  Dict.get (players league_huge) "B" = Some (mkPlayerData 0 0 0 "blue") /\
  get_standings (F := Q) "average" league_huge = Raised OverflowError league_huge /\
  ~ zero_games_reported (F := Q) "average" league_huge.
Proof.
  split; [reflexivity |]. split; [apply league_huge_run |].
  intros (rows & Hrows & _). rewrite league_huge_run in Hrows. discriminate.
Qed.

(** C7, amended: [get_standings] never raises [ZeroDivisionError], for no
    league (the guard [games > 0] keeps the division from a zero divisor).
    Whenever it returns, the row of a rostered player with [games_played]
    equal to 0 carries the average 0, the integer, and so does every row
    whose games are 0; and it returns for every league in which no quotient
    [points / games_played] is beyond the range of the floats. *)
Theorem get_standings_zero_games {F : Type} {HF : PyNumber F} (sort_by : string)
    (L : League) :
  (forall L', get_standings (F := F) sort_by L <> Raised ZeroDivisionError L') /\
  (forall (rows : list (row F)) L',
      get_standings sort_by L = Returned rows L' ->
      (forall player d,
          Dict.get (players L) player = Some d ->
          games_played d = 0 ->
          In (player, points d, 0, int_zero, mvp_count d) rows) /\
      (forall x, In x rows -> row_games x = 0 -> row_avg x = int_zero)) /\
  (in_float_range L ->
   exists rows : list (row F), get_standings sort_by L = Returned rows L).
Proof.
  split; [| split].
  - intros L'. rewrite get_standings_run.
    destruct (roster_standings L); discriminate.
  - intros rows L' Hrun.
    destruct (returned_standings sort_by L rows L' Hrun) as (rows0 & Hrows0 & -> & _).
    pose proof (sorted_rows_perm sort_by rows0) as Hperm.
    pose proof (proj1 (traverse_Forall2 _ _ _) Hrows0) as Hall.
    split.
    + intros player d Hd Hzero.
      apply (Permutation_in _ (Permutation_sym Hperm)).
      apply DictFacts.get_In in Hd.
      destruct (Forall2_In_l _ _ _ _ Hall Hd) as (x & Hx & Hstanding).
      unfold standing, average in Hstanding. rewrite Hzero in Hstanding.
      cbn in Hstanding. injection Hstanding as <-. exact Hx.
    + intros x Hx Hzero.
      apply (Permutation_in _ Hperm) in Hx.
      destruct (Forall2_In_r _ _ _ _ Hall Hx) as ([player d] & _ & Hstanding).
      apply standing_fields in Hstanding as (_ & _ & Hgames & _ & Havg).
      unfold average in Havg. rewrite <- Hgames, Hzero in Havg.
      cbn in Havg. congruence.
  - intros Hrange.
    destruct (in_float_range_returns sort_by L Hrange) as (rows0 & _ & Hrun).
    eauto.
Qed.

Lemma get_standings_zero_games_witness :
  exists rows : list (row Q),
    get_standings "average" roster_AB = Returned rows roster_AB.
Proof.
  exact (proj2 (proj2 (get_standings_zero_games "average" roster_AB))
           roster_AB_in_range).
Defined.

(** With the guard removed the division would raise at such a player. *)
Example truediv_zero_divisor :
  @py_truediv League Q _ 7 0 roster_AB = Raised ZeroDivisionError roster_AB.
Proof. reflexivity. Qed.

(** ** Reset *)

Section ResetFacts.
Import DictFacts.

Lemma get_app_notin {V} (pre l : Dict.t V) k :
  ~ In k (Dict.keys pre) -> Dict.get (pre ++ l) k = Dict.get l k.
Proof.
  induction pre as [| [k' v'] pre IH]; simpl; [reflexivity |].
  intros Hnot. destruct (String.eqb_spec k' k) as [-> | Hne]; [| apply IH]; tauto.
Qed.

Lemma set_app_notin {V} (pre l : Dict.t V) k v :
  ~ In k (Dict.keys pre) -> Dict.set (pre ++ l) k v = pre ++ Dict.set l k v.
Proof.
  induction pre as [| [k' v'] pre IH]; simpl; [reflexivity |].
  intros Hnot. destruct (String.eqb_spec k' k) as [-> | Hne]; [tauto |].
  rewrite IH; tauto.
Qed.

Lemma reset_player_run player d L :
  Dict.get (players L) player = Some d ->
  reset_player player L =
  Returned tt (mkLeague (Dict.set (players L) player (zeroed d)) (history L)).
Proof.
  intros Hget. unfold reset_player, player_entry, store_entry. run.
  rewrite Hget. simpl. rewrite get_set_same. simpl.
  rewrite set_set, get_set_same. simpl. now rewrite set_set.
Qed.

(** The loop of [reset_league], part way: the entries before the current
    key are done, those from it on are still to do. *)
Lemma reset_loop (rest : Dict.t PlayerData) : forall pre h,
  Dict.wf (pre ++ rest) ->
  for_each (Dict.keys rest) reset_player (mkLeague (pre ++ rest) h) =
  Returned tt (mkLeague (pre ++ map zeroed_item rest) h).
Proof.
  induction rest as [| [k d] rest IH]; intros pre h Hwf; [reflexivity |].
  assert (Hnot : ~ In k (Dict.keys pre)).
  { unfold Dict.wf, Dict.keys in Hwf. rewrite map_app in Hwf.
    apply NoDup_remove_2 in Hwf. intros Hin. apply Hwf.
    apply in_or_app. now left. }
  change (Dict.keys ((k, d) :: rest)) with (k :: Dict.keys rest).
  rewrite for_each_cons.
  rewrite (reset_player_run k d).
  2:{ simpl. rewrite get_app_notin by assumption. simpl.
      now rewrite String.eqb_refl. }
  simpl. rewrite set_app_notin by assumption. simpl.
  rewrite String.eqb_refl.
  change (pre ++ (k, zeroed d) :: rest) with (pre ++ [(k, zeroed d)] ++ rest).
  rewrite app_assoc, IH.
  - now rewrite <- app_assoc.
  - unfold Dict.wf, Dict.keys in *. rewrite <- app_assoc.
    rewrite !map_app in *. exact Hwf.
Qed.

Lemma reset_league_run L :
  Dict.wf (players L) ->
  reset_league L = Returned tt (mkLeague (map zeroed_item (players L)) []).
Proof.
  intros Hwf. unfold reset_league. run.
  destruct L as [ps h]. simpl in *.
  pose proof (reset_loop ps [] h Hwf) as Hloop. simpl in Hloop.
  now rewrite Hloop.
Qed.

Lemma get_map_zeroed (ps : Dict.t PlayerData) k :
  Dict.get (map zeroed_item ps) k = option_map zeroed (Dict.get ps k).
Proof.
  induction ps as [| [k' d] ps IH]; simpl; [reflexivity |].
  now destruct (String.eqb k' k).
Qed.

Lemma keys_map_zeroed (ps : Dict.t PlayerData) :
  Dict.keys (map zeroed_item ps) = Dict.keys ps.
Proof. unfold Dict.keys. rewrite map_map. reflexivity. Qed.
End ResetFacts.

(** C5: for every league, [reset_league] returns; afterwards every
    rostered player has [points], [games_played] and [mvp_count] at 0 and
    the colour it had, the names of the roster and their order are the
    same, the history is empty, and every row of [get_standings] shows
    points 0, games 0, average 0 and MVP count 0. *)
Theorem reset_league_zeroes {F : Type} {HF : PyNumber F} (L : League) :
  Dict.wf (players L) ->
  exists L',
    reset_league L = Returned tt L' /\
    history L' = [] /\
    Dict.keys (players L') = Dict.keys (players L) /\
    (forall player d,
        Dict.get (players L) player = Some d ->
        Dict.get (players L') player = Some (mkPlayerData 0 0 0 (color d))) /\
    (forall sort_by : string,
      exists rows : list (row F),
        get_standings sort_by L' = Returned rows L' /\
        Permutation (map row_player rows) (Dict.keys (players L)) /\
        forall x, In x rows ->
          row_points x = 0 /\ row_games x = 0 /\ row_avg x = int_zero /\
          row_mvp_count x = 0).
Proof.
  intros Hwf. eexists. split; [now apply reset_league_run |]. simpl.
  split; [reflexivity |]. split; [apply keys_map_zeroed |]. split.
  - intros player d Hd. now rewrite get_map_zeroed, Hd.
  - intros sort_by.
    destruct (in_float_range_returns (F := F) sort_by
                (mkLeague (map zeroed_item (players L)) []))
      as (rows0 & Hrows0 & Hrun).
    { intros player d Hin Hpos. cbn [players] in Hin.
      apply in_map_iff in Hin as ([p e] & [= _ <-] & _). simpl in Hpos. lia. }
    exists (sorted_rows sort_by rows0). split; [exact Hrun |].
    pose proof (sorted_rows_perm sort_by rows0) as Hperm.
    unfold roster_standings in Hrows0. cbn [players] in Hrows0. split.
    + rewrite Hperm, (roster_standings_players _ _ Hrows0).
      now rewrite keys_map_zeroed.
    + intros x Hx. apply (Permutation_in _ Hperm) in Hx.
      apply traverse_Forall2 in Hrows0.
      destruct (Forall2_In_r _ _ _ _ Hrows0 Hx) as ([player d] & Hin & Hstanding).
      apply in_map_iff in Hin as ([p e] & [= _ <-] & _).
      apply standing_fields in Hstanding as (_ & -> & -> & -> & Havg).
      cbn in Havg. injection Havg as <-. repeat split.
Qed.

Lemma roster_AB_wf : Dict.wf (players roster_AB).
Proof.
  unfold Dict.wf. simpl. repeat constructor; simpl; intuition discriminate.
Defined.

Lemma after_game2_wf : Dict.wf (players after_game2).
Proof.
  unfold Dict.wf. simpl. repeat constructor; simpl; intuition discriminate.
Defined.

Lemma reset_league_zeroes_witness :
  exists L',
    reset_league after_game2 = Returned tt L' /\
    history L' = [] /\
    Dict.keys (players L') = Dict.keys (players after_game2) /\
    (forall player d,
        Dict.get (players after_game2) player = Some d ->
        Dict.get (players L') player = Some (mkPlayerData 0 0 0 (color d))) /\
    (forall sort_by : string,
      exists rows : list (row Q),
        get_standings sort_by L' = Returned rows L' /\
        Permutation (map row_player rows) (Dict.keys (players after_game2)) /\
        forall x, In x rows ->
          row_points x = 0 /\ row_games x = 0 /\ row_avg x = int_zero /\
          row_mvp_count x = 0).
Proof. exact (reset_league_zeroes after_game2 after_game2_wf). Defined.

Example reset_league_run_example :
  reset_league after_game2 =
  Returned tt (mkLeague [("A", mkPlayerData 0 0 0 "red");
                         ("B", mkPlayerData 0 0 0 "blue")] []).
Proof. reflexivity. Qed.

(** ** Adding a player *)

Lemma palette_index (n : nat) :
  Z.to_nat (Z.of_nat n mod len_team_colors) = (n mod 9)%nat.
Proof.
  change len_team_colors with (Z.of_nat 9).
  now rewrite <- Nat2Z.inj_mod, Nat2Z.id.
Qed.

(** C8: [add_player name] returns and leaves the history as it is.  It
    changes nothing when [name] is empty or already in the roster.
    Otherwise the roster is the old one followed by [name], whose entry has
    points, games and MVP count 0 and the colour of the palette of 9 colours
    at index (size of the old roster mod 9); the other entries are the
    same. *)
Theorem add_player_effect (name : string) (L : League) :
  exists L',
    add_player name L = Returned tt L' /\
    history L' = history L /\
    List.length team_colors = 9%nat /\
    (name = "" \/ Dict.mem (players L) name = true -> L' = L) /\
    (name <> "" -> Dict.mem (players L) name = false ->
     let color := nth (List.length (players L) mod 9) team_colors "" in
     players L' = players L ++ [(name, mkPlayerData 0 0 0 color)] /\
     In color team_colors /\
     Dict.get (players L') name = Some (mkPlayerData 0 0 0 color) /\
     forall player, player <> name ->
       Dict.get (players L') player = Dict.get (players L) player).
Proof.
  unfold add_player, bind, get_state.
  destruct (String.eqb_spec name "") as [-> | Hname]; cbn [negb andb].
  - exists L. split; [reflexivity |]. split; [reflexivity |].
    split; [reflexivity |]. split; [reflexivity |].
    intros Hne. now destruct Hne.
  - destruct (Dict.mem (players L) name) eqn:Hmem; cbn [negb andb].
    + exists L. split; [reflexivity |]. split; [reflexivity |].
      split; [reflexivity |]. split; [reflexivity |]. discriminate.
    + unfold store_entry, modify. eexists. split; [reflexivity |].
      cbn [history players].
      split; [reflexivity |]. split; [reflexivity |]. split.
      * intros [Hempty | Habs]; [contradiction | discriminate].
      * intros _ _. unfold color_at, Dict.len. rewrite palette_index.
        apply DictFacts.mem_false in Hmem. cbv zeta.
        split; [now apply DictFacts.set_absent |].
        split; [| split; [apply DictFacts.get_set_same |]].
        -- apply nth_In. change (List.length team_colors) with 9%nat.
           apply Nat.mod_upper_bound. discriminate.
        -- intros player Hne. apply DictFacts.get_set_other. congruence.
Qed.

Lemma add_player_effect_witness :
  exists L',
    add_player "C" roster_AB = Returned tt L' /\
    history L' = history roster_AB /\
    List.length team_colors = 9%nat /\
    ("C" = "" \/ Dict.mem (players roster_AB) "C" = true -> L' = roster_AB) /\
    ("C" <> "" -> Dict.mem (players roster_AB) "C" = false ->
     let color := nth (List.length (players roster_AB) mod 9) team_colors "" in
     players L' = players roster_AB ++ [("C", mkPlayerData 0 0 0 color)] /\
     In color team_colors /\
     Dict.get (players L') "C" = Some (mkPlayerData 0 0 0 color) /\
     forall player, player <> "C" ->
       Dict.get (players L') player = Dict.get (players roster_AB) player).
Proof. exact (add_player_effect "C" roster_AB). Defined.

Example add_player_third :
  add_player "C" roster_AB =
  Returned tt (mkLeague [("A", mkPlayerData 0 0 0 "red");
                         ("B", mkPlayerData 0 0 0 "blue");
                         ("C", mkPlayerData 0 0 0 "green")] []).
Proof. reflexivity. Qed.

(** The palette repeats: the tenth player gets the colour of the first. *)
Example add_player_tenth :
  let L9 := init ["Mike"; "Mez"; "Dan"; "Vik"; "Noah"; "Lucas"; "Isaac";
                  "Layla"; "Steve"] in
  option_map color (Dict.get (players (final_state (add_player "Zoe" L9))) "Zoe")
  = Some "red".
Proof. reflexivity. Qed.

(** ** Loading and saving *)

(** C6: when no file of that name exists, [load_from_file] returns (the
    [FileNotFoundError] is caught), prints its diagnostic, and leaves the
    players, the history and the files as they were. *)
Theorem load_from_file_missing (filename : string) (w : World) :
  files w filename = None ->
  load_from_file filename w =
  Returned tt (mkWorld (league w) (files w) (stdout w ++ [diagnostic])).
Proof.
  intros Hnone. unfold load_from_file, try_except_FileNotFoundError.
  unfold bind at 1. unfold open_and_load. rewrite Hnone. reflexivity.
Qed.

Lemma load_from_file_missing_witness :
  load_from_file "league_scores.json" world_after_game2 =
  Returned tt (mkWorld after_game2 no_files [diagnostic]).
Proof.
  exact (load_from_file_missing "league_scores.json" world_after_game2 eq_refl).
Defined.

(** *** Reading back what was written *)

Lemma traverse_section {A B} (f : B -> option A) (g : A -> B) (l : list A) :
  (forall x, f (g x) = Some x) -> traverse f (map g l) = Some l.
Proof.
  intros Hfg. induction l as [| x l IH]; [reflexivity |].
  cbn [map traverse]. rewrite Hfg, IH. reflexivity.
Qed.

Lemma player_of_json_of_player d : player_of_json (json_of_player d) = Some d.
Proof. now destruct d. Qed.

Lemma players_of_json_of_players ps :
  players_of_json (json_of_players ps) = Some ps.
Proof.
  unfold players_of_json, json_of_players, dict_of_json.
  apply traverse_section. intros [name d].
  now rewrite player_of_json_of_player.
Qed.

Lemma results_of_json_of_results r :
  dict_of_json str_of_json (json_of_results r) = Some r.
Proof.
  unfold json_of_results, dict_of_json.
  apply traverse_section. now intros [player place].
Qed.

Lemma game_of_json_of_game g : game_of_json (json_of_game g) = Some g.
Proof.
  destruct g as [t r n m k]. unfold game_of_json, json_of_game.
  cbn [field Dict.get String.eqb Ascii.eqb Bool.eqb opt_bind str_of_json
       timestamp results notes mvp deck_used].
  now rewrite results_of_json_of_results.
Qed.

Lemma history_of_json_of_history h :
  history_of_json (json_of_history h) = Some h.
Proof.
  unfold history_of_json, json_of_history.
  apply traverse_section. apply game_of_json_of_game.
Qed.

Lemma save_to_file_run filename w :
  save_to_file filename w =
  Returned tt (mkWorld (league w)
                 (write_file (files w) filename (Document (saved_document (league w))))
                 (stdout w)).
Proof. reflexivity. Qed.

(** Loading a file that holds the saved document of [L] installs [L],
    whatever league was in memory. *)
Lemma load_saved_document filename L w :
  files w filename = Some (Document (saved_document L)) ->
  load_from_file filename w = Returned tt (mkWorld L (files w) (stdout w)).
Proof.
  intros Hfile. unfold load_from_file, try_except_FileNotFoundError.
  unfold bind at 1. unfold open_and_load. rewrite Hfile.
  unfold saved_document, data_get, Dict.get_default. simpl.
  unfold bind at 1. unfold ret at 1.
  unfold bind at 1. rewrite players_of_json_of_players. unfold typed at 1, ret at 1.
  unfold bind at 1, modify at 1.
  unfold bind at 1, ret at 1.
  unfold bind at 1. rewrite history_of_json_of_history. unfold typed, ret.
  unfold modify. simpl. now destruct L.
Qed.

(** C4: [save_to_file] returns and changes nothing but the file; a
    [load_from_file] of the same name in the world it leaves, whatever
    league is then in memory and whatever was printed since, returns with
    the saved league in memory: the same history, and for every [sort_by]
    the same outcome of [get_standings] as before the save (the same rows,
    or the same error). *)
Theorem save_then_load {F : Type} {HF : PyNumber F} (filename : string)
    (w : World) (in_memory : League) (printed : list string) :
  exists w1 w2,
    save_to_file filename w = Returned tt w1 /\
    league w1 = league w /\
    load_from_file filename (mkWorld in_memory (files w1) printed) = Returned tt w2 /\
    league w2 = league w /\
    history (league w2) = history (league w) /\
    stdout w2 = printed /\
    forall sort_by : string,
      get_standings (F := F) sort_by (league w2) =
      get_standings (F := F) sort_by (league w).
Proof.
  eexists. eexists. split; [apply save_to_file_run |]. split; [reflexivity |].
  split.
  - apply load_saved_document with (L := league w). simpl.
    unfold write_file. now rewrite String.eqb_refl.
  - simpl. repeat split.
Qed.

Example save_then_load_run :
  let saved := final_state (save_to_file "league_scores.json" world_after_game2) in
  let restarted := mkWorld roster_AB (files saved) [] in
  league (final_state (load_from_file "league_scores.json" restarted)) = after_game2.
Proof. reflexivity. Qed.

(** A file that is not JSON, and a document that is no object: the error
    is not caught. *)
Example load_from_file_garbage :
  load_from_file "f" (mkWorld roster_AB (write_file no_files "f" Garbage) [])
  = Raised JSONDecodeError (mkWorld roster_AB (write_file no_files "f" Garbage) []).
Proof. reflexivity. Qed.

(** ** The roster stays a dictionary

    The hypothesis [Dict.wf] of the statements above is an invariant: the
    constructor establishes it and every method of the ledger keeps it, also
    when it raises. *)

Section Invariant.
Import DictFacts.

Lemma wf_set {V} (d : Dict.t V) k v : Dict.wf d -> Dict.wf (Dict.set d k v).
Proof.
  intros Hwf. destruct (Dict.get d k) as [v0 |] eqn:Hget.
  - unfold Dict.wf. now rewrite (keys_set_present d k v v0 Hget).
  - rewrite (set_absent d k v Hget). unfold Dict.wf, Dict.keys in *.
    rewrite map_app. simpl. apply NoDup_app; [assumption | repeat constructor; auto |].
    intros x Hx [<- | []].
    apply In_keys_get in Hx as [v' Hv']. congruence.
Qed.

Lemma keys_del_incl {V} (d : Dict.t V) k x :
  In x (Dict.keys (Dict.del d k)) -> In x (Dict.keys d).
Proof.
  induction d as [| [k' v'] d IH]; simpl; [auto |].
  destruct (String.eqb k' k); simpl; tauto.
Qed.

Lemma wf_del {V} (d : Dict.t V) k : Dict.wf d -> Dict.wf (Dict.del d k).
Proof.
  unfold Dict.wf. induction d as [| [k' v'] d IH]; simpl; [auto |].
  intros Hwf. inversion Hwf as [| ? ? Hnot Hwf']; subst.
  destruct (String.eqb k' k); [assumption |].
  simpl. constructor; [| now apply IH].
  intros Hin. apply Hnot. now apply keys_del_incl in Hin.
Qed.

Lemma init_players_wf names : forall i acc,
  Dict.wf acc -> Dict.wf (init_players i names acc).
Proof.
  induction names as [| player names IH]; intros i acc Hwf; simpl; [assumption |].
  apply IH. now apply wf_set.
Qed.

Lemma init_wf names : roster_wf (init names).
Proof. apply init_players_wf. constructor. Qed.

Lemma preserves_ret {S A} (P : S -> Prop) (a : A) : preserves P (ret a).
Proof. now intros s. Qed.

Lemma preserves_bind {S A B} (P : S -> Prop) (m : M S A) (k : A -> M S B) :
  preserves P m -> (forall a, preserves P (k a)) -> preserves P (bind m k).
Proof.
  intros Hm Hk s Hs. unfold bind. specialize (Hm s Hs).
  destruct (m s) as [a s' | e s']; [now apply Hk | assumption].
Qed.

Lemma preserves_for_each {S A} (P : S -> Prop) (items : list A)
    (body : A -> M S unit) :
  (forall x, preserves P (body x)) -> preserves P (for_each items body).
Proof.
  intros Hbody. induction items as [| x items IH]; simpl.
  - apply preserves_ret.
  - apply preserves_bind; auto.
Qed.

Lemma preserves_player_entry player : preserves roster_wf (player_entry player).
Proof.
  intros L HL. unfold player_entry. now destruct (Dict.get (players L) player).
Qed.

Lemma preserves_store_entry player d : preserves roster_wf (store_entry player d).
Proof. intros L HL. now apply wf_set. Qed.

Lemma preserves_get_state {S} (P : S -> Prop) : preserves P get_state.
Proof. now intros s. Qed.

Create HintDb ledger.
#[local] Hint Resolve preserves_ret preserves_player_entry preserves_store_entry
  preserves_get_state : ledger.
#[local] Hint Extern 2 (preserves _ (bind _ _)) =>
  apply preserves_bind; [| intro] : ledger.
#[local] Hint Extern 2 (preserves _ (for_each _ _)) =>
  apply preserves_for_each; intro : ledger.
#[local] Hint Extern 3 (preserves _ (if ?b then _ else _)) => destruct b : ledger.

Lemma preserves_credit_placement entry : preserves roster_wf (credit_placement entry).
Proof.
  destruct entry as [player place].
  unfold credit_placement, add_to_points, add_to_games_played.
  auto 10 with ledger.
Qed.

Lemma preserves_credit_mvp mvp : preserves roster_wf (credit_mvp mvp).
Proof.
  unfold credit_mvp, add_to_points, add_to_mvp_count. auto 10 with ledger.
Qed.

Lemma record_game_results_wf now results_dict notes mvp deck_used :
  preserves roster_wf (record_game_results now results_dict notes mvp deck_used).
Proof.
  unfold record_game_results. apply preserves_bind; [now intros L HL |].
  intros _. apply preserves_bind; [| intros _; apply preserves_credit_mvp].
  apply preserves_for_each. apply preserves_credit_placement.
Qed.

Lemma add_player_wf name : preserves roster_wf (add_player name).
Proof. unfold add_player. auto 10 with ledger. Qed.

Lemma remove_player_wf name : preserves roster_wf (remove_player name).
Proof.
  unfold remove_player. apply preserves_bind; [auto with ledger |].
  intros L. destruct (Dict.mem (players L) name); [| auto with ledger].
  intros L' HL'. now apply wf_del.
Qed.

Lemma reset_league_wf : preserves roster_wf reset_league.
Proof.
  unfold reset_league. apply preserves_bind; [auto with ledger |].
  intros L. apply preserves_bind; [| now intros _ L' HL'].
  apply preserves_for_each. intros player. unfold reset_player.
  auto 10 with ledger.
Qed.

Lemma get_standings_wf {F} `{PyNumber F} sort_by :
  preserves roster_wf (get_standings (F := F) sort_by).
Proof.
  intros L HL. rewrite get_standings_run. now destruct (roster_standings L).
Qed.
End Invariant.

(** * Further properties of the ledger *)

(** ** What a call of [record_game_results] leaves alone *)

Section Frame.
Import DictFacts.
Variable P : League -> Prop.
Hypothesis P_stable : entry_stable P.

Lemma preserves_entry_update player (f : PlayerData -> PlayerData) :
  (forall d, color (f d) = color d) ->
  preserves P (d <- player_entry player ;; store_entry player (f d)).
Proof.
  intros Hcolor L HL. unfold bind, player_entry, store_entry, modify.
  destruct (Dict.get (players L) player) as [d |] eqn:Hget; simpl; [| assumption].
  now apply P_stable with d.
Qed.

Lemma preserves_add_to_points player n : preserves P (add_to_points player n).
Proof. apply (preserves_entry_update player (fun d => set_points d (points d + n))). auto. Qed.

Lemma preserves_add_to_games_played player n :
  preserves P (add_to_games_played player n).
Proof.
  apply (preserves_entry_update player
           (fun d => set_games_played d (games_played d + n))). auto.
Qed.

Lemma preserves_add_to_mvp_count player n : preserves P (add_to_mvp_count player n).
Proof.
  apply (preserves_entry_update player (fun d => set_mvp_count d (mvp_count d + n))).
  auto.
Qed.

Lemma stable_credit_placement entry : preserves P (credit_placement entry).
Proof.
  destruct entry as [player place]. unfold credit_placement.
  destruct (place =? "Did Not Play")%string; [apply preserves_ret |].
  apply preserves_bind; [apply preserves_add_to_points |].
  intros _. apply preserves_add_to_games_played.
Qed.

Lemma stable_credit_mvp mvp : preserves P (credit_mvp mvp).
Proof.
  unfold credit_mvp. apply preserves_bind; [apply preserves_get_state |].
  intros L. destruct (negb (mvp =? "")%string && Dict.mem (players L) mvp);
    [| apply preserves_ret].
  apply preserves_bind; [apply preserves_add_to_points |].
  intros _. apply preserves_add_to_mvp_count.
Qed.

(** The loop and the MVP block, from the state with the record appended. *)
Lemma stable_credits results_dict mvp :
  preserves P (for_each results_dict credit_placement ;; credit_mvp mvp).
Proof.
  apply preserves_bind.
  - apply preserves_for_each. apply stable_credit_placement.
  - intros _. apply stable_credit_mvp.
Qed.
End Frame.

Lemma record_game_results_final now results_dict notes mvp deck_used L :
  final_state (record_game_results now results_dict notes mvp deck_used L) =
  final_state
    ((for_each results_dict credit_placement ;; credit_mvp mvp)
       (mkLeague (players L)
          (history L ++ [mkGameRecord now results_dict notes mvp deck_used]))).
Proof. reflexivity. Qed.

(** X1: whatever the arguments and whether the call returns or raises,
    [record_game_results] leaves the history it found with exactly one
    record appended, the record of its arguments; no earlier record is
    changed. *)
Theorem record_game_results_history now results_dict notes mvp deck_used L :
  history (final_state (record_game_results now results_dict notes mvp deck_used L))
  = history L ++ [mkGameRecord now results_dict notes mvp deck_used].
Proof.
  rewrite record_game_results_final.
  set (h := history L ++ _).
  apply (stable_credits (fun L' => history L' = h)); [| reflexivity].
  intros L' player d d' HL' _ _. exact HL'.
Qed.

(** X2: whatever the arguments and whether the call returns or raises,
    [record_game_results] adds no player, removes none, and changes neither
    the order of the roster nor the colour of a player. *)
Theorem record_game_results_roster now results_dict notes mvp deck_used L :
  let L' := final_state (record_game_results now results_dict notes mvp deck_used L) in
  Dict.keys (players L') = Dict.keys (players L) /\
  forall player,
    option_map color (Dict.get (players L') player) =
    option_map color (Dict.get (players L) player).
Proof.
  cbv zeta. rewrite record_game_results_final.
  apply (stable_credits
           (fun L' => Dict.keys (players L') = Dict.keys (players L) /\
                      forall player,
                        option_map color (Dict.get (players L') player) =
                        option_map color (Dict.get (players L) player)));
    [| split; reflexivity].
  intros L1 player d d' [Hkeys Hcolors] Hget Hcolor. simpl. split.
  - now rewrite (DictFacts.keys_set_present _ _ _ _ Hget).
  - intros q. destruct (String.eqb_spec player q) as [<- | Hne].
    + rewrite DictFacts.get_set_same, <- Hcolors, Hget. simpl. now rewrite Hcolor.
    + now rewrite DictFacts.get_set_other.
Qed.

Lemma award_bounds place :
  0 <= Dict.get_default placement_points place 0 <= 5.
Proof.
  unfold Dict.get_default, placement_points. cbn [Dict.get].
  repeat match goal with
         | |- context [String.eqb ?a ?b] => destruct (String.eqb a b)
         end; lia.
Qed.

(** X3: a call that places rostered names only never lowers a statistic:
    for every rostered player, [points] grows by 0 to 6, [games_played] by
    0 or 1 and [mvp_count] by 0 or 1. *)
Theorem record_game_results_bounds
    now results_dict notes mvp deck_used L :
  Dict.wf results_dict ->
  results_rostered L results_dict ->
  exists L',
    record_game_results now results_dict notes mvp deck_used L = Returned tt L' /\
    forall player d,
      Dict.get (players L) player = Some d ->
      exists d',
        Dict.get (players L') player = Some d' /\
        points d <= points d' <= points d + 6 /\
        games_played d <= games_played d' <= games_played d + 1 /\
        mvp_count d <= mvp_count d' <= mvp_count d + 1.
Proof.
  intros Hwf Hok.
  destruct (record_game_results_effect now results_dict notes mvp deck_used L Hwf Hok)
    as (ps & Hrun & _ & Hget).
  eexists. split; [exact Hrun |]. intros player d Hd.
  eexists. split; [apply (Hget _ _ Hd) |].
  unfold placed_by, placed.
  destruct (Dict.get results_dict player) as [place |].
  - pose proof (award_bounds place) as Haward.
    destruct (place =? "Did Not Play")%string, (is_mvp L mvp player); simpl; lia.
  - destruct (is_mvp L mvp player); simpl; lia.
Qed.

Lemma record_game_results_bounds_witness :
  exists L',
    record_game_results "2024-01-01 20:00:00" game1 "" "A" "" roster_AB
    = Returned tt L' /\
    forall player d,
      Dict.get (players roster_AB) player = Some d ->
      exists d',
        Dict.get (players L') player = Some d' /\
        points d <= points d' <= points d + 6 /\
        games_played d <= games_played d' <= games_played d + 1 /\
        mvp_count d <= mvp_count d' <= mvp_count d + 1.
Proof.
  exact (record_game_results_bounds "2024-01-01 20:00:00" game1 "" "A" ""
           roster_AB game1_wf game1_rostered).
Defined.

(** ** A game nobody played *)

Lemma credit_nobody (results_dict : Dict.t string) L :
  nobody_played results_dict ->
  for_each results_dict credit_placement L = Returned tt L.
Proof.
  induction results_dict as [| [player place] rest IH]; intros Hnone;
    [reflexivity |].
  rewrite for_each_cons.
  rewrite (Hnone player place (or_introl eq_refl)), credit_placement_dnp.
  apply IH. intros p pl Hin. apply (Hnone p pl). now right.
Qed.

(** X4: the ledger does not ask that somebody played.  When every tag is
    "Did Not Play" (or the results are empty), also for names that are not
    in the roster, the call returns, appends its record to the history and
    changes no entry but that of the credited MVP, who still gains the MVP
    point and award. *)
Theorem record_game_results_nobody_played
    now results_dict notes mvp deck_used L :
  nobody_played results_dict ->
  exists ps,
    record_game_results now results_dict notes mvp deck_used L =
    Returned tt
      (mkLeague ps (history L ++ [mkGameRecord now results_dict notes mvp deck_used]))
    /\ Dict.keys ps = Dict.keys (players L)
    /\ forall player d,
         Dict.get (players L) player = Some d ->
         Dict.get ps player = Some (if is_mvp L mvp player then mvp_awarded d else d).
Proof.
  intros Hnone. unfold record_game_results, history_append.
  set (game := mkGameRecord _ _ _ _ _).
  set (L0 := mkLeague (players L) (history L ++ [game])).
  destruct (credit_mvp_effect mvp L0) as (ps & Hmvp & Hkeys & Hget).
  exists ps. unfold bind at 1. unfold modify. fold L0.
  unfold bind. rewrite (credit_nobody results_dict L0 Hnone), Hmvp.
  split; [reflexivity |]. split; [exact Hkeys |].
  intros player d Hd. rewrite (Hget player d Hd). reflexivity.
Qed.

Lemma game_nobody_played : nobody_played game_nobody.
Proof. intros player place [[= <- <-] | [[= <- <-] | []]]; reflexivity. Defined.

Lemma record_game_results_nobody_played_witness :
  exists ps,
    record_game_results "2024-01-01 20:00:00" game_nobody "" "B" "" roster_AB =
    Returned tt
      (mkLeague ps
         (history roster_AB ++
          [mkGameRecord "2024-01-01 20:00:00" game_nobody "" "B" ""]))
    /\ Dict.keys ps = Dict.keys (players roster_AB)
    /\ forall player d,
         Dict.get (players roster_AB) player = Some d ->
         Dict.get ps player =
         Some (if is_mvp roster_AB "B" player then mvp_awarded d else d).
Proof.
  exact (record_game_results_nobody_played "2024-01-01 20:00:00" game_nobody ""
           "B" "" roster_AB game_nobody_played).
Defined.

(** ** The history accounts for the statistics *)

Lemma tally_app f h g : tally f (h ++ [g]) = tally f h + f g.
Proof. induction h as [| g' h IH]; simpl; [lia | rewrite IH; lia]. Qed.

Lemma is_mvp_rostered L g player d :
  Dict.get (players L) player = Some d ->
  (if is_mvp L (mvp g) player then 1 else 0) = mvp_in player g.
Proof.
  intros Hd. unfold is_mvp, mvp_in.
  destruct (String.eqb_spec (mvp g) player) as [-> | Hne].
  - unfold Dict.mem. rewrite Hd. now rewrite !andb_true_r.
  - now rewrite !andb_false_r.
Qed.

(** One returning call keeps the account. *)
Lemma consistent_step g L :
  playable L g ->
  consistent L ->
  exists L',
    record_game g L = Returned tt L' /\
    history L' = history L ++ [g] /\
    Dict.keys (players L') = Dict.keys (players L) /\
    consistent L'.
Proof.
  intros [Hwf Hok] Hcons. unfold record_game.
  destruct (record_game_results_effect (timestamp g) (results g) (notes g) (mvp g)
              (deck_used g) L Hwf Hok) as (ps & Hrun & Hkeys & Hget).
  eexists. split; [exact Hrun |]. simpl.
  replace (mkGameRecord (timestamp g) (results g) (notes g) (mvp g) (deck_used g))
    with g by now destruct g.
  split; [reflexivity |]. split; [exact Hkeys |].
  intros player d' Hd'. simpl in Hd'.
  assert (Hin : exists d, Dict.get (players L) player = Some d).
  { apply DictFacts.In_keys_get. rewrite <- Hkeys.
    now apply DictFacts.get_In_keys with d'. }
  destruct Hin as [d Hd]. rewrite (Hget player d Hd) in Hd'.
  injection Hd' as <-.
  destruct (Hcons player d Hd) as (Hgames & Hmvps & Hpoints).
  simpl. rewrite !tally_app.
  pose proof (is_mvp_rostered L g player d Hd) as Hmvp.
  unfold placed_by, placed, played_in, award_in in *.
  destruct (Dict.get (results g) player) as [place |];
    [destruct (place =? "Did Not Play")%string |];
    destruct (is_mvp L (mvp g) player); simpl; repeat split; lia.
Qed.

Lemma playable_keys L L' g :
  Dict.keys (players L') = Dict.keys (players L) -> playable L g -> playable L' g.
Proof.
  intros Hk [Hwf Hok]. split; [assumption |].
  now apply results_rostered_keys with L.
Qed.

(** X5: over a season the history accounts for the statistics.  From a
    league whose statistics agree with its history, any sequence of calls
    that place rostered names only returns; the history is then the old one
    followed by the records of the calls in order, the roster is the same,
    and for every rostered player [games_played] is the number of records
    that place the player, [mvp_count] the number of records that name the
    player as MVP, and [points] the sum of the awards of these placements
    plus [mvp_count]. *)
Theorem record_games_consistent (gs : list GameRecord) : forall L,
  consistent L ->
  Forall (playable L) gs ->
  exists L',
    record_games gs L = Returned tt L' /\
    history L' = history L ++ gs /\
    Dict.keys (players L') = Dict.keys (players L) /\
    consistent L'.
Proof.
  induction gs as [| g gs IH]; intros L Hcons Hall.
  - exists L. rewrite app_nil_r.
    split; [reflexivity |]. split; [reflexivity |]. split; [reflexivity |].
    assumption.
  - inversion Hall as [| ? ? Hg Hgs]; subst.
    destruct (consistent_step g L Hg Hcons) as (L1 & Hrun1 & Hh1 & Hk1 & Hc1).
    destruct (IH L1 Hc1) as (L' & Hrun & Hh & Hk & Hc).
    { apply Forall_impl with (2 := Hgs). intros g'. now apply playable_keys. }
    exists L'. unfold record_games in *. rewrite for_each_cons, Hrun1.
    split; [exact Hrun |]. split; [| split; [congruence | assumption]].
    rewrite Hh, Hh1, <- app_assoc. reflexivity.
Qed.

Lemma init_players_zero names : forall i acc,
  all_zero acc -> all_zero (init_players i names acc).
Proof.
  induction names as [| name names IH]; intros i acc Hacc; simpl; [assumption |].
  apply IH. intros player d.
  destruct (String.eqb_spec name player) as [<- | Hne].
  - rewrite DictFacts.get_set_same. intros [= <-]. repeat split.
  - rewrite DictFacts.get_set_other by assumption. apply Hacc.
Qed.

Lemma all_zero_consistent ps : all_zero ps -> consistent (mkLeague ps []).
Proof. intros Hzero player d Hd. simpl. destruct (Hzero player d Hd) as (-> & -> & ->). auto. Qed.

Lemma init_consistent_aux names : consistent (init names).
Proof.
  apply all_zero_consistent. apply init_players_zero. intros player d [=].
Qed.

(** X6: a league just constructed, and a league just reset, agree with
    their (empty) history: the account of X5 starts there. *)
Theorem fresh_league_consistent (names : list string) (L : League) :
  Dict.wf (players L) ->
  consistent (init names) /\
  exists L', reset_league L = Returned tt L' /\ consistent L'.
Proof.
  intros Hwf. split; [apply init_consistent_aux |].
  eexists. split; [now apply reset_league_run |].
  apply all_zero_consistent. intros player d.
  rewrite get_map_zeroed. destruct (Dict.get (players L) player); [| discriminate].
  intros [= <-]. repeat split.
Qed.

Lemma fresh_league_consistent_witness :
  consistent (init ["A"; "B"]) /\
  exists L', reset_league after_game2 = Returned tt L' /\ consistent L'.
Proof. exact (fresh_league_consistent ["A"; "B"] after_game2 after_game2_wf). Defined.

Lemma game2_wf : Dict.wf game2.
Proof.
  unfold Dict.wf. simpl. repeat constructor; simpl; intuition discriminate.
Defined.

Lemma game2_rostered : results_rostered roster_AB game2.
Proof.
  intros player place [[= <- <-] | [[= <- <-] | []]] _; reflexivity.
Defined.

Lemma season_AB_playable : Forall (playable roster_AB) season_AB.
Proof.
  apply Forall_cons; [split; [exact game1_wf | exact game1_rostered] |].
  apply Forall_cons; [split; [exact game2_wf | exact game2_rostered] |].
  apply Forall_nil.
Defined.

Lemma record_games_consistent_witness :
  exists L',
    record_games season_AB roster_AB = Returned tt L' /\
    history L' = history roster_AB ++ season_AB /\
    Dict.keys (players L') = Dict.keys (players roster_AB) /\
    consistent L'.
Proof.
  exact (record_games_consistent season_AB roster_AB
           (init_consistent_aux ["A"; "B"]) season_AB_playable).
Defined.

(** ** Ties in the standings *)

Lemma ties_games g (x : Z) :
  negb (g <? x) && negb (x <? g) = (x =? g).
Proof.
  destruct (Z.ltb_spec g x), (Z.ltb_spec x g), (Z.eqb_spec x g); simpl; lia.
Qed.

(** X7: ties in the standings are broken by the order of the roster.
    Whenever [get_standings] returns, for "games" the rows with any given
    number of games, and for the average the rows whose averages compare
    equal to any given number, come out in the order the players have in
    the roster. *)
Theorem get_standings_ties {F : Type} {HF : PyNumber F} {HO : PyNumberOrder F}
    (sort_by : string) (L L' : League) (rows : list (row F)) :
  get_standings sort_by L = Returned rows L' ->
  exists rows0 : list (row F),
    Forall2 (fun item x => standing item = Some x) (players L) rows0 /\
    (sort_by = "games" ->
     forall g : Z,
       filter (fun x => row_games x =? g) rows =
       filter (fun x => row_games x =? g) rows0) /\
    (sort_by <> "games" ->
     forall k : F,
       filter (ties num_lt row_avg k) rows = filter (ties num_lt row_avg k) rows0).
Proof.
  intros Hrun.
  destruct (returned_standings sort_by L rows L' Hrun) as (rows0 & Hrows0 & -> & _).
  exists rows0. split; [now apply traverse_Forall2 |]. unfold sorted_rows. split.
  - intros -> g. simpl.
    assert (Hext : forall l : list (row F),
               filter (fun x => row_games x =? g) l =
               filter (ties Z.ltb row_games g) l).
    { intros l. apply filter_ext. intros x. unfold ties. now rewrite ties_games. }
    rewrite !Hext. apply (sorted_reverse_stable Z.ltb row_games Z_ge_trans).
  - intros Hne k. apply String.eqb_neq in Hne. rewrite Hne.
    apply (sorted_reverse_stable num_lt row_avg num_ge_trans).
Qed.

Lemma roster_ABC_standings :
  get_standings (F := Q) "games" roster_ABC =
  Returned [("A", 0, 0, 0%Q, 0); ("B", 0, 0, 0%Q, 0); ("C", 0, 0, 0%Q, 0)] roster_ABC.
Proof. reflexivity. Defined.

Lemma get_standings_ties_witness :
  exists rows0 : list (row Q),
    Forall2 (fun item x => standing item = Some x) (players roster_ABC) rows0 /\
    ("games" = "games" ->
     forall g : Z,
       filter (fun x => row_games x =? g)
         [("A", 0, 0, 0%Q, 0); ("B", 0, 0, 0%Q, 0); ("C", 0, 0, 0%Q, 0)] =
       filter (fun x => row_games x =? g) rows0) /\
    ("games" <> "games" ->
     forall k : Q,
       filter (ties num_lt row_avg k)
         [("A", 0, 0, 0%Q, 0); ("B", 0, 0, 0%Q, 0); ("C", 0, 0, 0%Q, 0)] =
       filter (ties num_lt row_avg k) rows0).
Proof.
  exact (get_standings_ties "games" roster_ABC roster_ABC _ roster_ABC_standings).
Defined.

(** No game played yet: the standings list the roster in its own order. *)
Example standings_before_any_game :
  get_standings "average" roster_ABC =
  Returned [("A", 0, 0, 0%Q, 0); ("B", 0, 0, 0%Q, 0); ("C", 0, 0, 0%Q, 0)] roster_ABC.
Proof. reflexivity. Qed.

(** ** Removing a player *)

Section RemoveFacts.
Import DictFacts.
Context {V : Type}.
Implicit Types (d : Dict.t V) (k : string).

Lemma get_del_other d k k' : k <> k' -> Dict.get (Dict.del d k) k' = Dict.get d k'.
Proof.
  intros Hne. induction d as [| [k0 v0] d IH]; simpl; [reflexivity |].
  destruct (String.eqb_spec k0 k) as [-> | Hk0]; simpl.
  - apply String.eqb_neq in Hne. now rewrite Hne.
  - now rewrite IH.
Qed.

Lemma filter_other_notin k (l : list string) :
  ~ In k l -> filter (fun x => negb (x =? k)%string) l = l.
Proof.
  induction l as [| x l IH]; simpl; [reflexivity |].
  intros Hnot. destruct (String.eqb_spec x k) as [-> | Hne]; simpl.
  - exfalso. apply Hnot. now left.
  - rewrite IH; tauto.
Qed.

Lemma keys_del d k :
  Dict.wf d ->
  Dict.keys (Dict.del d k) = filter (fun x => negb (x =? k)%string) (Dict.keys d).
Proof.
  unfold Dict.wf. induction d as [| [k0 v0] d IH]; simpl; [reflexivity |].
  intros Hwf. inversion Hwf as [| ? ? Hnot Hwf']; subst.
  destruct (String.eqb_spec k0 k) as [-> | Hk0]; simpl.
  - symmetry. now apply filter_other_notin.
  - f_equal. now apply IH.
Qed.

Lemma get_del_same d k : Dict.wf d -> Dict.get (Dict.del d k) k = None.
Proof.
  intros Hwf. apply notin_keys_get. rewrite keys_del by assumption.
  rewrite filter_In. intros [_ Hk]. now rewrite String.eqb_refl in Hk.
Qed.

Lemma length_del d k v :
  Dict.get d k = Some v -> S (List.length (Dict.del d k)) = List.length d.
Proof.
  induction d as [| [k0 v0] d IH]; simpl; [discriminate |].
  destruct (String.eqb k0 k); [reflexivity |].
  intros Hget. simpl. f_equal. now apply IH.
Qed.

Lemma del_absent d k : Dict.get d k = None -> Dict.del d k = d.
Proof.
  induction d as [| [k0 v0] d IH]; simpl; [reflexivity |].
  destruct (String.eqb k0 k); [discriminate |].
  intros Hget. f_equal. now apply IH.
Qed.

Lemma del_appended d k v : Dict.get d k = None -> Dict.del (d ++ [(k, v)]) k = d.
Proof.
  induction d as [| [k0 v0] d IH]; simpl.
  - now rewrite String.eqb_refl.
  - destruct (String.eqb k0 k); [discriminate |].
    intros Hget. f_equal. now apply IH.
Qed.
End RemoveFacts.

Lemma remove_player_run name L :
  remove_player name L =
  Returned tt (if Dict.mem (players L) name
               then mkLeague (Dict.del (players L) name) (history L) else L).
Proof.
  unfold remove_player, bind, get_state.
  now destruct (Dict.mem (players L) name).
Qed.

(** X8: [remove_player name] returns for every name.  Afterwards [name] is
    not in the roster, every other player has the entry and the relative
    position it had, and the history is the same, records that name the
    removed player included.  If [name] was not in the roster nothing
    changes; otherwise the roster has one player less. *)
Theorem remove_player_effect (name : string) (L : League) :
  Dict.wf (players L) ->
  exists L',
    remove_player name L = Returned tt L' /\
    history L' = history L /\
    Dict.get (players L') name = None /\
    (forall player, player <> name ->
       Dict.get (players L') player = Dict.get (players L) player) /\
    Dict.keys (players L') =
    filter (fun x => negb (x =? name)%string) (Dict.keys (players L)) /\
    (Dict.mem (players L) name = false -> L' = L) /\
    (Dict.mem (players L) name = true ->
     S (List.length (players L')) = List.length (players L)).
Proof.
  intros Hwf. eexists. split; [apply remove_player_run |].
  destruct (Dict.mem (players L) name) eqn:Hmem.
  - apply DictFacts.mem_true in Hmem as [d Hd]. simpl.
    split; [reflexivity |]. split; [now apply get_del_same |].
    split; [intros player Hne; apply get_del_other; congruence |].
    split; [now apply keys_del |].
    split; [discriminate |]. intros _. now apply length_del with d.
  - apply DictFacts.mem_false in Hmem.
    split; [reflexivity |]. split; [assumption |].
    split; [reflexivity |].
    split.
    + rewrite <- keys_del by assumption. now rewrite del_absent.
    + split; [reflexivity | discriminate].
Qed.

Lemma remove_player_effect_witness :
  exists L',
    remove_player "A" after_game2 = Returned tt L' /\
    history L' = history after_game2 /\
    Dict.get (players L') "A" = None /\
    (forall player, player <> "A" ->
       Dict.get (players L') player = Dict.get (players after_game2) player) /\
    Dict.keys (players L') =
    filter (fun x => negb (x =? "A")%string) (Dict.keys (players after_game2)) /\
    (Dict.mem (players after_game2) "A" = false -> L' = after_game2) /\
    (Dict.mem (players after_game2) "A" = true ->
     S (List.length (players L')) = List.length (players after_game2)).
Proof. exact (remove_player_effect "A" after_game2 after_game2_wf). Defined.

(** ** Adding and removing compose *)

Lemma add_player_run name L :
  add_player name L =
  Returned tt
    (if negb (name =? "")%string && negb (Dict.mem (players L) name)
     then mkLeague
            (Dict.set (players L) name
               (mkPlayerData 0 0 0
                  (color_at (Dict.len (players L) mod len_team_colors))))
            (history L)
     else L).
Proof.
  unfold add_player, bind, get_state.
  now destruct (negb (name =? "")%string && negb (Dict.mem (players L) name)).
Qed.

(** X9: removing a player right after adding them undoes the addition: for
    a name that is not in the roster, [add_player] followed by
    [remove_player] returns and leaves the league exactly as it was. *)
Theorem add_then_remove (name : string) (L : League) :
  Dict.mem (players L) name = false ->
  (add_player name ;; remove_player name) L = Returned tt L.
Proof.
  intros Hmem. unfold bind at 1. rewrite add_player_run, Hmem.
  destruct (negb (name =? "")%string); cbn [andb negb].
  - rewrite remove_player_run. cbn [players history].
    apply DictFacts.mem_false in Hmem.
    rewrite (DictFacts.set_absent _ _ _ Hmem).
    unfold Dict.mem. rewrite get_app_notin.
    2:{ intros Hin. apply DictFacts.In_keys_get in Hin as [v Hv]. congruence. }
    cbn [Dict.get]. rewrite String.eqb_refl.
    rewrite (del_appended _ _ _ Hmem). now destruct L.
  - rewrite remove_player_run. now rewrite Hmem.
Qed.

Lemma add_then_remove_witness :
  (add_player "C" ;; remove_player "C") after_game2 = Returned tt after_game2.
Proof. exact (add_then_remove "C" after_game2 eq_refl). Defined.

(** X10: removing a player and adding the same name again does not bring
    the statistics back.  For a rostered, non-empty name the two calls
    return; the player is then last in the roster with points, games and
    MVP count 0 and the palette colour at index (old size - 1) mod 9, while
    the history still holds every record. *)
Theorem remove_then_add (name : string) (L : League) :
  Dict.wf (players L) ->
  name <> "" ->
  Dict.mem (players L) name = true ->
  (remove_player name ;; add_player name) L =
  Returned tt
    (mkLeague
       (Dict.del (players L) name ++
        [(name, mkPlayerData 0 0 0
                  (nth (Nat.pred (List.length (players L)) mod 9) team_colors ""))])
       (history L)).
Proof.
  intros Hwf Hname Hmem. unfold bind at 1.
  rewrite remove_player_run, Hmem, add_player_run. cbn [players history].
  apply String.eqb_neq in Hname. rewrite Hname.
  pose proof (get_del_same (players L) name Hwf) as Hgone.
  unfold Dict.mem at 1. rewrite Hgone. cbn [negb andb].
  rewrite (DictFacts.set_absent _ _ _ Hgone).
  unfold color_at, Dict.len. rewrite palette_index.
  apply DictFacts.mem_true in Hmem as [d Hd].
  rewrite <- (length_del _ _ _ Hd). reflexivity.
Qed.

Lemma name_A : "A" <> "".
Proof. discriminate. Defined.

Lemma remove_then_add_witness :
  (remove_player "A" ;; add_player "A") after_game2 =
  Returned tt
    (mkLeague
       (Dict.del (players after_game2) "A" ++
        [("A", mkPlayerData 0 0 0
                 (nth (Nat.pred (List.length (players after_game2)) mod 9)
                    team_colors ""))])
       (history after_game2)).
Proof. exact (remove_then_add "A" after_game2 after_game2_wf name_A eq_refl). Defined.

(** ** The constructor *)

Lemma init_players_distinct names : forall i acc,
  NoDup names ->
  (forall name, In name names -> Dict.get acc name = None) ->
  Dict.keys (init_players i names acc) = Dict.keys acc ++ names /\
  (forall k name,
      nth_error names k = Some name ->
      Dict.get (init_players i names acc) name =
      Some (mkPlayerData 0 0 0 (color_at ((i + Z.of_nat k) mod len_team_colors)))) /\
  (forall name, ~ In name names ->
      Dict.get (init_players i names acc) name = Dict.get acc name).
Proof.
  induction names as [| n names IH]; intros i acc Hnodup Hfresh.
  - simpl. rewrite app_nil_r. split; [reflexivity |]. split; [| reflexivity].
    intros [| k] name [=].
  - inversion Hnodup as [| ? ? Hnotin Hnodup']; subst.
    cbn [init_players].
    set (v := mkPlayerData 0 0 0 (color_at (i mod len_team_colors))).
    assert (Hn : Dict.get acc n = None) by (apply Hfresh; now left).
    destruct (IH (i + 1) (Dict.set acc n v) Hnodup') as (Hkeys & Hget & Hother).
    { intros name Hin. rewrite DictFacts.get_set_other.
      - apply Hfresh. now right.
      - intros ->. contradiction. }
    split; [| split].
    + rewrite Hkeys, (DictFacts.set_absent _ _ _ Hn).
      unfold Dict.keys. rewrite map_app, <- app_assoc. reflexivity.
    + intros [| k] name Hnth; simpl in Hnth.
      * injection Hnth as <-. rewrite (Hother n Hnotin), DictFacts.get_set_same.
        unfold v. change (Z.of_nat 0) with 0. now rewrite Z.add_0_r.
      * rewrite (Hget k name Hnth).
        replace (i + 1 + Z.of_nat k) with (i + Z.of_nat (S k)) by lia.
        reflexivity.
    + intros name Hnot. rewrite Hother by (intros Hin; apply Hnot; now right).
      apply DictFacts.get_set_other. intros ->. apply Hnot. now left.
Qed.

Lemma init_players_rostered names : forall i acc name,
  Dict.mem (init_players i names acc) name = true <->
  In name names \/ Dict.mem acc name = true.
Proof.
  induction names as [| n names IH]; intros i acc name; cbn [init_players].
  - simpl. tauto.
  - rewrite IH. unfold Dict.mem at 1.
    destruct (String.eqb_spec n name) as [<- | Hne].
    + rewrite DictFacts.get_set_same. simpl. tauto.
    + rewrite DictFacts.get_set_other by assumption.
      fold (Dict.mem acc name). simpl. intuition congruence.
Qed.

(** X11: [CommanderLeague(names)] starts with an empty history and a roster
    of exactly the listed names, each with points, games and MVP count 0.
    When the names are distinct the roster lists them in the order given and
    the player at position [k] has the palette colour at index [k mod 9]:
    from the tenth player on the colours repeat. *)
Theorem init_roster (names : list string) :
  history (init names) = [] /\
  (forall name, Dict.mem (players (init names)) name = true <-> In name names) /\
  all_zero (players (init names)) /\
  (NoDup names ->
   Dict.keys (players (init names)) = names /\
   forall k name,
     nth_error names k = Some name ->
     Dict.get (players (init names)) name =
     Some (mkPlayerData 0 0 0 (nth (k mod 9) team_colors ""))).
Proof.
  split; [reflexivity |]. split; [| split].
  - intros name. unfold init. cbn [players].
    rewrite init_players_rostered. unfold Dict.mem. simpl. intuition discriminate.
  - apply init_players_zero. intros player d [=].
  - intros Hnodup.
    destruct (init_players_distinct names 0 [] Hnodup) as (Hkeys & Hget & _);
      [reflexivity |].
    split; [exact Hkeys |].
    intros k name Hnth. unfold init. cbn [players].
    rewrite (Hget k name Hnth). unfold color_at.
    now rewrite Z.add_0_l, palette_index.
Qed.

Lemma default_players_distinct : NoDup default_players.
Proof. repeat constructor; simpl; intuition discriminate. Defined.

Lemma init_roster_witness :
  history (init default_players) = [] /\
  (forall name,
      Dict.mem (players (init default_players)) name = true <->
      In name default_players) /\
  all_zero (players (init default_players)) /\
  (NoDup default_players ->
   Dict.keys (players (init default_players)) = default_players /\
   forall k name,
     nth_error default_players k = Some name ->
     Dict.get (players (init default_players)) name =
     Some (mkPlayerData 0 0 0 (nth (k mod 9) team_colors ""))).
Proof. exact (init_roster default_players). Defined.

(** ** Loading: defaults and errors *)

Lemma load_from_file_object filename w d ps h :
  files w filename = Some (Document (JDict d)) ->
  players_of_json (Dict.get_default d "players" (JDict [])) = Some ps ->
  history_of_json (Dict.get_default d "history" (JList [])) = Some h ->
  load_from_file filename w = Returned tt (mkWorld (mkLeague ps h) (files w) (stdout w)).
Proof.
  intros Hfile Hps Hh. unfold load_from_file, try_except_FileNotFoundError.
  unfold bind at 1. unfold open_and_load. rewrite Hfile.
  unfold data_get.
  unfold bind at 1. unfold ret at 1.
  unfold bind at 1. rewrite Hps. unfold typed at 1, ret at 1.
  unfold bind at 1, modify at 1.
  unfold bind at 1, ret at 1.
  unfold bind at 1. rewrite Hh. unfold typed, ret.
  unfold modify. reflexivity.
Qed.

Lemma absent_or_players d ps :
  absent_or d "players" json_of_players [] ps ->
  players_of_json (Dict.get_default d "players" (JDict [])) = Some ps.
Proof.
  unfold Dict.get_default. intros [[-> ->] | ->]; [reflexivity |].
  apply players_of_json_of_players.
Qed.

Lemma absent_or_history d h :
  absent_or d "history" json_of_history [] h ->
  history_of_json (Dict.get_default d "history" (JList [])) = Some h.
Proof.
  unfold Dict.get_default. intros [[-> ->] | ->]; [reflexivity |].
  apply history_of_json_of_history.
Qed.

(** X12: [load_from_file] reads the two keys of the saved object
    independently and by name, whatever else the object holds and in
    whatever order.  A missing "players" gives an empty roster and a missing
    "history" an empty history, without any error or diagnostic; the league
    that was in memory is discarded in both cases. *)
Theorem load_from_file_defaults filename w d ps h :
  files w filename = Some (Document (JDict d)) ->
  absent_or d "players" json_of_players [] ps ->
  absent_or d "history" json_of_history [] h ->
  load_from_file filename w = Returned tt (mkWorld (mkLeague ps h) (files w) (stdout w)).
Proof.
  intros Hfile Hps Hh. apply load_from_file_object with d; auto.
  - now apply absent_or_players.
  - now apply absent_or_history.
Qed.

Lemma history_only_players :
  absent_or [("version", JInt 1); ("history", json_of_history (history after_game2))]
    "players" json_of_players [] [].
Proof. left. split; reflexivity. Defined.

Lemma history_only_history :
  absent_or [("version", JInt 1); ("history", json_of_history (history after_game2))]
    "history" json_of_history [] (history after_game2).
Proof. right. reflexivity. Defined.

Lemma load_from_file_defaults_witness :
  load_from_file "old.json" world_history_only =
  Returned tt (mkWorld (mkLeague [] (history after_game2))
                 (files world_history_only) (stdout world_history_only)).
Proof.
  exact (load_from_file_defaults "old.json" world_history_only _ [] (history after_game2)
           eq_refl history_only_players history_only_history).
Defined.

(** X13: [load_from_file] catches [FileNotFoundError] only.  A file that is
    not JSON raises the decoder's error and a document that is not an
    object (a list, a number, a string, null) raises [AttributeError] at
    [data.get]; both propagate to the caller, nothing is printed and the
    league in memory is untouched. *)
Theorem load_from_file_uncaught filename w :
  (files w filename = Some Garbage ->
   load_from_file filename w = Raised JSONDecodeError w) /\
  (forall doc,
      files w filename = Some (Document doc) ->
      is_object doc = false ->
      load_from_file filename w = Raised (AttributeError "get") w).
Proof.
  split.
  - intros Hfile. unfold load_from_file, try_except_FileNotFoundError.
    unfold bind at 1. unfold open_and_load. now rewrite Hfile.
  - intros doc Hfile Hobj. unfold load_from_file, try_except_FileNotFoundError.
    unfold bind at 1. unfold open_and_load. rewrite Hfile.
    destruct doc; try discriminate; reflexivity.
Qed.

Lemma load_from_file_uncaught_witness :
  load_from_file "list.json"
    (mkWorld roster_AB (write_file no_files "list.json" (Document (JList []))) [])
  = Raised (AttributeError "get")
      (mkWorld roster_AB (write_file no_files "list.json" (Document (JList []))) []).
Proof.
  exact (proj2 (load_from_file_uncaught "list.json"
                  (mkWorld roster_AB
                     (write_file no_files "list.json" (Document (JList []))) []))
           (JList []) eq_refl eq_refl).
Defined.

(** ** The league the application starts with *)

Lemma load_from_file_absent filename L fs out :
  fs filename = None ->
  load_from_file filename (mkWorld L fs out) =
  Returned tt (mkWorld L fs (out ++ [diagnostic])).
Proof.
  intros Hnone. unfold load_from_file, try_except_FileNotFoundError.
  unfold bind at 1. unfold open_and_load. cbn [files]. rewrite Hnone. reflexivity.
Qed.

Lemma main_league_after_load w w1 :
  load_from_file default_filename
    (mkWorld (init default_players) (files w) (stdout w)) = Returned tt w1 ->
  main_league w =
  Returned tt
    (if dict_is_empty (players (league w1))
     then mkWorld (init default_players) (files w1) (stdout w1) else w1).
Proof.
  intros Hload. unfold main_league, set_league.
  unfold bind at 1. unfold modify at 1.
  unfold bind at 1. rewrite Hload.
  unfold bind, get_state.
  now destruct (dict_is_empty (players (league w1))).
Qed.

Lemma init_default_nonempty : dict_is_empty (players (init default_players)) = false.
Proof. reflexivity. Qed.

(** X14: the league the script starts with.  Without a save file it is the
    default league of nine players, and the diagnostic is printed.  With
    the file that [save_to_file] wrote for a league [L] it is [L], unless
    the roster of [L] is empty: then it is the default league, and the
    history of [L] is not loaded.  Whenever these lines return, the roster
    is not empty. *)
Theorem main_league_effect (w : World) :
  (files w default_filename = None ->
   main_league w =
   Returned tt (mkWorld (init default_players) (files w) (stdout w ++ [diagnostic])))
  /\
  (forall L,
      files w default_filename = Some (Document (saved_document L)) ->
      main_league w =
      Returned tt
        (mkWorld (if dict_is_empty (players L) then init default_players else L)
           (files w) (stdout w)))
  /\
  (forall w', main_league w = Returned tt w' ->
              dict_is_empty (players (league w')) = false).
Proof.
  split; [| split].
  - intros Hnone.
    rewrite (main_league_after_load w
               (mkWorld (init default_players) (files w) (stdout w ++ [diagnostic]))).
    + reflexivity.
    + now apply load_from_file_absent.
  - intros L Hfile.
    rewrite (main_league_after_load w (mkWorld L (files w) (stdout w))).
    + simpl. now destruct (dict_is_empty (players L)).
    + exact (load_saved_document default_filename L
               (mkWorld (init default_players) (files w) (stdout w)) Hfile).
  - intros w' Hrun.
    destruct (load_from_file default_filename
                (mkWorld (init default_players) (files w) (stdout w)))
      as [[] w1 | e w1] eqn:Hload.
    + rewrite (main_league_after_load w w1 Hload) in Hrun.
      injection Hrun as <-.
      destruct (dict_is_empty (players (league w1))) eqn:Hempty; [reflexivity | assumption].
    + unfold main_league, set_league in Hrun.
      unfold bind at 1 in Hrun. unfold modify at 1 in Hrun.
      unfold bind at 1 in Hrun. rewrite Hload in Hrun. discriminate.
Qed.

Lemma main_league_effect_witness :
  main_league world_emptied =
  Returned tt (mkWorld (init default_players) (files world_emptied) []).
Proof.
  exact (proj1 (proj2 (main_league_effect world_emptied)) emptied_league eq_refl).
Defined.

(** ** The callbacks of the window *)

Lemma on_league_returned {A} (m : M League A) x L L' u :
  m L = Returned x L' -> on_league m (mkApp L u) = Returned x (mkApp L' u).
Proof. intros Hrun. unfold on_league. simpl. now rewrite Hrun. Qed.

Lemma wf_same_keys {V W} (d : Dict.t V) (d' : Dict.t W) :
  Dict.keys d = Dict.keys d' -> Dict.wf d' -> Dict.wf d.
Proof. unfold Dict.wf. now intros ->. Qed.

Lemma open_record_game_dialog_run a :
  dict_is_empty (players (app_league a)) = false ->
  exists dlg0,
    LeagueApp.open_record_game_dialog a = Returned dlg0 a /\
    dialog_for (app_league a) dlg0 /\
    forallb (fun r => (r =? "Did Not Play")%string) (map snd (entries dlg0)) = true.
Proof.
  intros Hroster. unfold LeagueApp.open_record_game_dialog, bind, get_state, dialog_for.
  assert (Hk : forall items : Dict.t PlayerData,
             Dict.keys (map (fun '(player, _) => (player, "Did Not Play")) items)
             = Dict.keys items).
  { intros items. unfold Dict.keys. rewrite map_map. apply map_ext. now intros [p e]. }
  assert (Ht : forall items : Dict.t PlayerData,
             forallb (fun r => (r =? "Did Not Play")%string)
               (map snd (map (fun '(player, _) => (player, "Did Not Play")) items))
             = true).
  { induction items as [| [p e] items IH]; [reflexivity | exact IH]. }
  destruct (players (app_league a)) as [| [first d] ps]; [discriminate |].
  eexists. split; [reflexivity |]. cbn [entries]. split; [apply Hk | apply Ht].
Qed.

(** X15: the dialog "Record Game Result".  On an empty roster it cannot be
    opened: the MVP menu raises [TypeError].  On any other roster it opens
    with every row at "Did Not Play", and for the button "Record Game" of a
    dialog that shows the current roster: if every row says "Did Not Play"
    (as in the dialog just opened) an error is shown and the ledger is not
    called, so no record reaches the history; otherwise the call of the
    ledger returns, no [KeyError] escapes, the history has the record of
    the selections appended, the success message is shown and the dialog
    is closed. *)
Theorem dialog_record (strip : string -> string) (now : string) (a : App) :
  Dict.wf (players (app_league a)) ->
  (dict_is_empty (players (app_league a)) = true ->
   LeagueApp.open_record_game_dialog a = Raised TypeError a) /\
  (dict_is_empty (players (app_league a)) = false ->
   (exists dlg0,
       LeagueApp.open_record_game_dialog a = Returned dlg0 a /\
       dialog_for (app_league a) dlg0 /\
       LeagueApp.record strip now dlg0 a =
       Returned tt
         (mkApp (app_league a)
            (ui a ++ [ShowError "Error" "At least one player must have a placement."])))
   /\
   forall dlg,
     dialog_for (app_league a) dlg ->
     (forallb (fun r => (r =? "Did Not Play")%string) (map snd (entries dlg)) = true ->
      LeagueApp.record strip now dlg a =
      Returned tt
        (mkApp (app_league a)
           (ui a ++ [ShowError "Error" "At least one player must have a placement."])))
     /\
     (forallb (fun r => (r =? "Did Not Play")%string) (map snd (entries dlg)) = false ->
      exists L',
        record_game_results now (entries dlg) (strip (notes_entry dlg))
          (strip (mvp_var dlg)) (strip (deck_entry dlg)) (app_league a)
        = Returned tt L' /\
        history L' =
        history (app_league a) ++
        [mkGameRecord now (entries dlg) (strip (notes_entry dlg))
           (strip (mvp_var dlg)) (strip (deck_entry dlg))] /\
        LeagueApp.record strip now dlg a =
        Returned tt
          (mkApp L'
             (ui a ++ [ShowInfo "Success" "Game result recorded."; DialogDestroyed])))).
Proof.
  intros Hwf. split.
  - intros Hempty. unfold LeagueApp.open_record_game_dialog, bind, get_state.
    now destruct (players (app_league a)).
  - intros Hroster. split.
    + destruct (open_record_game_dialog_run a Hroster) as (dlg0 & Hopen & Hfor & Htags).
      exists dlg0. split; [exact Hopen |]. split; [exact Hfor |].
      unfold LeagueApp.record. now rewrite Htags.
    + intros dlg Hfor. split.
      * intros Hall. unfold LeagueApp.record. now rewrite Hall.
      * intros Hsome.
        destruct (record_game_results_effect now (entries dlg) (strip (notes_entry dlg))
                    (strip (mvp_var dlg)) (strip (deck_entry dlg)) (app_league a))
          as (ps & Hrun & _ & _).
        { now apply wf_same_keys with (players (app_league a)). }
        { now apply maps_roster_rostered. }
        eexists. split; [exact Hrun |]. split; [reflexivity |].
        unfold LeagueApp.record. rewrite Hsome.
        destruct a as [L u]. cbn [app_league ui] in *. unfold bind at 1.
        rewrite (on_league_returned _ _ _ _ u Hrun).
        unfold bind, emit, modify. cbn [app_league ui].
        now rewrite <- app_assoc.
Qed.

Lemma dialog_game1_for : dialog_for roster_AB dialog_game1.
Proof. reflexivity. Defined.

Lemma dialog_record_witness :
  LeagueApp.record strip_spaces "2024-01-01 20:00:00" dialog_game1 (mkApp roster_AB [])
  = Returned tt
      (mkApp (mkLeague [("A", mkPlayerData 6 1 1 "red"); ("B", mkPlayerData 3 1 0 "blue")]
                [mkGameRecord "2024-01-01 20:00:00" game1 "close game" "A" ""])
         [ShowInfo "Success" "Game result recorded."; DialogDestroyed]).
Proof.
  destruct (proj2 (proj2 (proj2 (dialog_record strip_spaces "2024-01-01 20:00:00"
                                   (mkApp roster_AB []) roster_AB_wf) eq_refl)
                     dialog_game1 dialog_game1_for) eq_refl)
    as (L' & Hrun & _ & Happ).
  vm_compute in Hrun. injection Hrun as <-. exact Happ.
Defined.

(** The dialog on an empty roster. *)
Example open_record_game_dialog_empty :
  LeagueApp.open_record_game_dialog (mkApp (mkLeague [] []) []) =
  Raised TypeError (mkApp (mkLeague [] []) []).
Proof. reflexivity. Qed.

Lemma app_remove_player_rostered strip name a :
  name <> "" ->
  Dict.mem (players (app_league a)) name = true ->
  LeagueApp.remove_player strip (Some name) a =
  Returned tt
    (mkApp (if Dict.mem (players (app_league a)) (strip name)
            then mkLeague (Dict.del (players (app_league a)) (strip name))
                   (history (app_league a))
            else app_league a)
       (ui a ++ [BuildMainUI])).
Proof.
  intros Hname Hmem. unfold LeagueApp.remove_player, bind at 1, get_state.
  apply String.eqb_neq in Hname. rewrite Hname, Hmem. cbn [negb andb].
  destruct a as [L u]. unfold bind.
  rewrite (on_league_returned _ _ _ _ u (remove_player_run (strip name) L)).
  reflexivity.
Qed.

(** X16: the button "Remove Player".  The name that was typed is looked up
    as typed but removed stripped.  For a typed name that is not empty and
    is in the roster the callback returns, rebuilds the window and shows no
    error, and afterwards the typed name is out of the roster exactly when
    stripping leaves it as it is; otherwise that player stays (and a player
    called by the stripped name, if any, is the one removed).  When the
    user cancels, types nothing or types a name that is not in the roster,
    the ledger is unchanged and the error "Player '...' not found." is
    shown. *)
Theorem app_remove_player (strip : string -> string) (asked : option string)
    (a : App) :
  Dict.wf (players (app_league a)) ->
  (forall name,
      asked = Some name ->
      name <> "" ->
      Dict.mem (players (app_league a)) name = true ->
      exists L',
        LeagueApp.remove_player strip asked a =
        Returned tt (mkApp L' (ui a ++ [BuildMainUI])) /\
        remove_player (strip name) (app_league a) = Returned tt L' /\
        (Dict.mem (players L') name = false <-> strip name = name)) /\
  ((asked = None \/ asked = Some "" \/
    exists name, asked = Some name /\ Dict.mem (players (app_league a)) name = false) ->
   LeagueApp.remove_player strip asked a =
   Returned tt (mkApp (app_league a)
                  (ui a ++ [ShowError "Error" (LeagueApp.not_found asked)]))).
Proof.
  intros Hwf. split.
  - intros name -> Hname Hmem. eexists.
    split; [now apply app_remove_player_rostered |].
    split; [apply remove_player_run |].
    destruct (String.eqb_spec (strip name) name) as [Heq | Hne].
    + rewrite Heq, Hmem. cbn [players].
      split; [intros _; reflexivity | intros _].
      apply DictFacts.mem_false. now apply get_del_same.
    + assert (Hstill : forall L', players L' = players (app_league a) \/
                                  players L' = Dict.del (players (app_league a)) (strip name) ->
                                  Dict.mem (players L') name = true).
      { intros L' [-> | ->]; [assumption |].
        unfold Dict.mem. rewrite get_del_other by assumption. exact Hmem. }
      split; [| contradiction].
      intros Hgone. exfalso.
      destruct (Dict.mem (players (app_league a)) (strip name));
        rewrite Hstill in Hgone; auto; discriminate.
  - intros Hcase. unfold LeagueApp.remove_player, bind, get_state.
    destruct Hcase as [-> | [-> | (name & -> & Hmem)]]; try reflexivity.
    rewrite Hmem. now rewrite andb_false_r.
Qed.

Lemma roster_spaced_wf : Dict.wf (players roster_spaced).
Proof.
  unfold Dict.wf. simpl. repeat constructor; simpl; intuition discriminate.
Defined.

Lemma name_A_space : "A " <> "".
Proof. discriminate. Defined.

Lemma app_remove_player_witness :
  exists L',
    LeagueApp.remove_player strip_spaces (Some "A ") (mkApp roster_spaced []) =
    Returned tt (mkApp L' ([] ++ [BuildMainUI])) /\
    remove_player (strip_spaces "A ") roster_spaced = Returned tt L' /\
    (Dict.mem (players L') "A " = false <-> strip_spaces "A " = "A ").
Proof.
  exact (proj1 (app_remove_player strip_spaces (Some "A ") (mkApp roster_spaced [])
                  roster_spaced_wf) "A " eq_refl name_A_space eq_refl).
Defined.

(** The player typed with the space stays; the one without it is removed. *)
Example app_remove_player_other :
  LeagueApp.remove_player strip_spaces (Some "A ") (mkApp roster_spaced []) =
  Returned tt
    (mkApp (mkLeague [("A ", mkPlayerData 0 0 0 "red"); ("B", mkPlayerData 0 0 0 "green")] [])
       [BuildMainUI]).
Proof. reflexivity. Qed.

(** ** Building the roster by additions *)

Lemma init_players_app names1 : forall names2 i acc,
  init_players i (names1 ++ names2) acc =
  init_players (i + Z.of_nat (List.length names1)) names2 (init_players i names1 acc).
Proof.
  induction names1 as [| n names1 IH]; intros names2 i acc.
  - simpl. now rewrite Z.add_0_r.
  - cbn [app init_players List.length]. rewrite IH. f_equal. lia.
Qed.

Lemma init_len names :
  NoDup names -> Dict.len (players (init names)) = Z.of_nat (List.length names).
Proof.
  intros Hnodup.
  destruct (init_players_distinct names 0 [] Hnodup) as (Hkeys & _);
    [reflexivity |].
  unfold Dict.len, init. cbn [players]. f_equal.
  rewrite <- (length_map fst). fold (Dict.keys (init_players 0 names [])).
  now rewrite Hkeys.
Qed.

(** X17: the constructor and [add_player] build the same league.  Adding
    distinct, non-empty, new names one after the other to the league
    constructed from a list of distinct names returns the league that the
    constructor builds from the whole list: same order, same colours. *)
Theorem add_players_init (names2 : list string) : forall names1,
  NoDup (names1 ++ names2) ->
  ~ In "" names2 ->
  for_each names2 add_player (init names1) = Returned tt (init (names1 ++ names2)).
Proof.
  induction names2 as [| n names2 IH]; intros names1 Hnodup Hempty.
  - now rewrite app_nil_r.
  - rewrite for_each_cons, add_player_run.
    assert (Hn : n <> "") by (intros ->; apply Hempty; now left).
    apply String.eqb_neq in Hn. rewrite Hn.
    assert (Hnodup1 : NoDup names1) by now apply NoDup_app_remove_r in Hnodup.
    assert (Hnew : Dict.mem (players (init names1)) n = false).
    { destruct (Dict.mem (players (init names1)) n) eqn:Hmem; [| reflexivity].
      exfalso. unfold init in Hmem. cbn [players] in Hmem.
      apply init_players_rostered in Hmem as [Hin | Habs]; [| discriminate].
      apply NoDup_remove_2 in Hnodup. apply Hnodup.
      apply in_or_app. now left. }
    rewrite Hnew. cbn [negb andb].
    rewrite (init_len names1 Hnodup1).
    replace (mkLeague _ _) with (init (names1 ++ [n])).
    + replace (names1 ++ n :: names2) with ((names1 ++ [n]) ++ names2)
        by now rewrite <- app_assoc.
      apply IH.
      * now rewrite <- app_assoc.
      * intros Hin. apply Hempty. now right.
    + unfold init. cbn [players history]. now rewrite init_players_app.
Qed.

Lemma names_ABC_distinct : NoDup (["A"; "B"] ++ ["C"]).
Proof. repeat constructor; simpl; intuition discriminate. Defined.

Lemma no_empty_C : ~ In "" ["C"].
Proof. simpl. intuition discriminate. Defined.

Lemma add_players_init_witness :
  for_each ["C"] add_player (init ["A"; "B"]) = Returned tt (init (["A"; "B"] ++ ["C"])).
Proof. exact (add_players_init ["C"] ["A"; "B"] names_ABC_distinct no_empty_C). Defined.

(** ** Bounds that the account implies *)

Lemma tally_bounds player h :
  0 <= tally (played_in player) h <= Z.of_nat (List.length h) /\
  0 <= tally (mvp_in player) h <= Z.of_nat (List.length h) /\
  0 <= tally (award_in player) h <= 5 * tally (played_in player) h.
Proof.
  induction h as [| g h IH]; [simpl; lia |].
  cbn [tally fold_right List.length]. fold (tally (played_in player) h).
  fold (tally (mvp_in player) h). fold (tally (award_in player) h).
  assert (Hg : 0 <= played_in player g <= 1 /\ 0 <= mvp_in player g <= 1 /\
               0 <= award_in player g <= 5 * played_in player g).
  { unfold played_in, award_in, mvp_in.
    destruct (Dict.get (results g) player) as [place |].
    - pose proof (award_bounds place).
      destruct (place =? "Did Not Play")%string,
        (negb (mvp g =? "")%string && (mvp g =? player)%string); lia.
    - destruct (negb (mvp g =? "")%string && (mvp g =? player)%string); lia. }
  lia.
Qed.

(** X18: in a league whose statistics agree with its history (X5, X6) no
    statistic is negative, [games_played] and [mvp_count] are at most the
    number of recorded games, and the points of a player lie between
    [mvp_count] and [5 * games_played + mvp_count]. *)
Theorem consistent_bounds (L : League) (player : string) (d : PlayerData) :
  consistent L ->
  Dict.get (players L) player = Some d ->
  0 <= games_played d <= Z.of_nat (List.length (history L)) /\
  0 <= mvp_count d <= Z.of_nat (List.length (history L)) /\
  mvp_count d <= points d <= 5 * games_played d + mvp_count d.
Proof.
  intros Hcons Hd. destruct (Hcons player d Hd) as (-> & -> & ->).
  pose proof (tally_bounds player (history L)). lia.
Qed.

Lemma after_game2_consistent : consistent after_game2.
Proof.
  intros player d. change (players after_game2)
    with [("A", mkPlayerData 6 1 1 "red"); ("B", mkPlayerData 8 2 0 "blue")].
  cbn [Dict.get].
  destruct (String.eqb_spec "A" player) as [<- | _];
    [intros [= <-]; repeat split |].
  destruct (String.eqb_spec "B" player) as [<- | _];
    [intros [= <-]; repeat split | discriminate].
Defined.

Lemma consistent_bounds_witness :
  0 <= games_played (mkPlayerData 8 2 0 "blue")
    <= Z.of_nat (List.length (history after_game2)) /\
  0 <= mvp_count (mkPlayerData 8 2 0 "blue")
    <= Z.of_nat (List.length (history after_game2)) /\
  mvp_count (mkPlayerData 8 2 0 "blue") <= points (mkPlayerData 8 2 0 "blue")
    <= 5 * games_played (mkPlayerData 8 2 0 "blue") + mvp_count (mkPlayerData 8 2 0 "blue").
Proof.
  exact (consistent_bounds after_game2 "B" (mkPlayerData 8 2 0 "blue")
           after_game2_consistent eq_refl).
Defined.

Lemma sum_over_mvp_absent g names :
  ~ In (mvp g) names -> sum_over names (fun p => mvp_in p g) = 0.
Proof.
  induction names as [| n names IH]; simpl; [reflexivity |].
  intros Hnot. rewrite IH by tauto. unfold mvp_in.
  destruct (String.eqb_spec (mvp g) n) as [Heq | _].
  - exfalso. apply Hnot. now left.
  - now rewrite andb_false_r.
Qed.

Lemma sum_over_mvp_le_1 g names :
  NoDup names -> 0 <= sum_over names (fun p => mvp_in p g) <= 1.
Proof.
  induction 1 as [| n names Hnotin Hnodup IH]; simpl; [lia |].
  unfold mvp_in at 1 3.
  destruct (String.eqb_spec (mvp g) n) as [Heq | _].
  - rewrite sum_over_mvp_absent by now rewrite Heq.
    destruct (negb (mvp g =? "")%string); simpl; lia.
  - rewrite andb_false_r. lia.
Qed.

Lemma sum_over_tally names (f : string -> GameRecord -> Z) h :
  sum_over names (fun p => tally (f p) h) =
  tally (fun g => sum_over names (fun p => f p g)) h.
Proof.
  induction h as [| g h IH]; simpl.
  - induction names as [| n names IHn]; simpl; [reflexivity | now rewrite IHn].
  - fold (tally (fun g => sum_over names (fun p => f p g)) h).
    rewrite <- IH. clear IH.
    induction names as [| n names IHn]; simpl; [reflexivity |].
    fold (tally (f n) h). rewrite IHn. lia.
Qed.

Lemma roster_total_mvp L :
  Dict.wf (players L) ->
  consistent L ->
  roster_total mvp_count (players L) =
  sum_over (Dict.keys (players L)) (fun p => tally (mvp_in p) (history L)).
Proof.
  intros Hwf Hcons.
  assert (Hitems : forall p d, In (p, d) (players L) ->
                               mvp_count d = tally (mvp_in p) (history L)).
  { intros p d Hin. apply (Hcons p d). now apply DictFacts.wf_In_get. }
  revert Hitems. generalize (history L) as h. clear.
  induction (players L) as [| [p d] ps IH]; intros h Hitems; [reflexivity |].
  simpl. rewrite (Hitems p d) by now left.
  f_equal. apply IH. intros q e Hin. apply Hitems. now right.
Qed.

(** X19: at most one MVP award per recorded game.  In a league whose
    statistics agree with its history, the MVP counts of the whole roster
    add up to at most the number of records in the history. *)
Theorem mvp_awards_total (L : League) :
  Dict.wf (players L) ->
  consistent L ->
  0 <= roster_total mvp_count (players L) <= Z.of_nat (List.length (history L)).
Proof.
  intros Hwf Hcons. rewrite (roster_total_mvp L Hwf Hcons), sum_over_tally.
  induction (history L) as [| g h IH]; [simpl; lia |].
  cbn [tally fold_right List.length].
  fold (tally (fun g => sum_over (Dict.keys (players L)) (fun p => mvp_in p g)) h).
  pose proof (sum_over_mvp_le_1 g (Dict.keys (players L)) Hwf). lia.
Qed.

Lemma mvp_awards_total_witness :
  0 <= roster_total mvp_count (players after_game2)
    <= Z.of_nat (List.length (history after_game2)).
Proof. exact (mvp_awards_total after_game2 after_game2_wf after_game2_consistent). Defined.
